(** * IMDb data downloader: fetch / extract / idempotency pipeline

    A shallow embedding of [src/data/imdb_data_downloader.py].  The three
    functions of the script, [download_file], [extract_gzip] and
    [run_pipeline], are written in a small state-and-exception monad over a
    world made of a file system and a chronological trace of the observable
    actions (network requests, file creations, removals, log records).  What
    lies outside the script -- the HTTP server, the gzip codec, and whether
    the operating system lets a file be unlinked -- is an explicit
    environment record every operation is parameterised by. *)

From Stdlib.Strings Require Import Ascii String Byte.
From stdpp Require Import base option list strings gmap fin_maps.

Open Scope string_scope.
Open Scope list_scope.

(** ** Strings: the two Python string operations the script relies on *)

Module Str.

(** [s.startswith(p)] *)
Fixpoint startswith (p s : string) : bool :=
  match p, s with
  | EmptyString, _ => true
  | String a p', String b s' => if Ascii.eqb a b then startswith p' s' else false
  | String _ _, EmptyString => false
  end.

(** [s.replace(old, new)] for a non-empty [old]: every non-overlapping
    occurrence, scanning from the left.  [skip] counts the characters of an
    occurrence just replaced that are still to be dropped. *)
Fixpoint replace_from (old new : string) (skip : nat) (s : string) : string :=
  match s with
  | EmptyString => EmptyString
  | String c s' =>
      match skip with
      | S k => replace_from old new k s'
      | O =>
          if startswith old s
          then new +:+ replace_from old new (String.length old - 1) s'
          else String c (replace_from old new 0 s')
      end
  end.

Definition replace (s old new : string) : string := replace_from old new 0 s.

(** [s.rfind('.')], as an option instead of [-1]. *)
Fixpoint rfind_dot_from (i : nat) (s : string) (last : option nat) : option nat :=
  match s with
  | EmptyString => last
  | String c s' =>
      rfind_dot_from (S i) s' (if Ascii.eqb c "."%char then Some i else last)
  end.

Definition rfind_dot (s : string) : option nat := rfind_dot_from 0 s None.

(** [s[:n]] *)
Definition take (n : nat) (s : string) : string := String.substring 0 n s.

(** [s[n:]] *)
Definition drop (n : nat) (s : string) : string :=
  String.substring n (String.length s - n) s.

(** [s.split(sep)] for a one-character separator. *)
Fixpoint split_on (sep : ascii) (s : string) : list string :=
  match s with
  | EmptyString => [EmptyString]
  | String c s' =>
      if Ascii.eqb c sep then EmptyString :: split_on sep s'
      else match split_on sep s' with
           | [] => [String c EmptyString]
           | w :: ws => String c w :: ws
           end
  end.

End Str.

(** ** Paths

    A [pathlib] path is the tuple of its [parts]; an absolute path has the
    anchor ["/"] as its first part.  [OUTPUT_DIR] is relative, so everything
    the pipeline touches is relative to the working directory. *)

Abbreviation Path := (list string).

Module PurePath.

(** Segments of a string given to the [Path] constructor or to [/]: empty
    and ["."] segments are dropped. *)
Definition segments (s : string) : list string :=
  filter (λ c, c ≠ "" ∧ c ≠ ".") (Str.split_on "/"%char s).

Definition of_string (s : string) : Path :=
  if Str.startswith "/" s then "/" :: segments s else segments s.

(** [p / s]: an absolute right operand replaces the left one. *)
Definition joinpath (p : Path) (s : string) : Path :=
  if Str.startswith "/" s then of_string s else p ++ segments s.

(** [p.name]: the last part, empty for the anchor and for the empty path. *)
Definition name (p : Path) : string :=
  match last p with
  | Some n => if String.eqb n "/" then "" else n
  | None => ""
  end.

(** [p.parent]; the parent of the empty path and of the anchor is itself. *)
Definition parent (p : Path) : Path :=
  if bool_decide (p = [] ∨ p = ["/"]) then p else removelast p.

(** [p.suffix]: from the last dot of the name, unless that dot is the first
    or the last character. *)
Definition suffix (p : Path) : string :=
  let n := name p in
  match Str.rfind_dot n with
  | Some i =>
      if bool_decide (0 < i ∧ i < String.length n - 1) then Str.drop i n else ""
  | None => ""
  end.

(** [p.with_suffix('')]: [None] stands for the [ValueError] raised on a path
    with an empty name. *)
Definition with_suffix_empty (p : Path) : option Path :=
  let n := name p in
  if String.eqb n "" then None
  else
    let old_suffix := suffix p in
    let n' :=
      if String.eqb old_suffix "" then n
      else Str.take (String.length n - String.length old_suffix) n in
    Some (removelast p ++ [n']).

End PurePath.

Infix "/:" := PurePath.joinpath (at level 40, left associativity).

(** ** Module-level configuration of the script *)

Definition BASE_URL : string := "https://datasets.imdbws.com/".

Definition OUTPUT_DIR : Path := PurePath.of_string "data/raw/imdb_data/".

Definition FILES_TO_DOWNLOAD : list string :=
  [ "title.basics.tsv.gz";
    "title.ratings.tsv.gz";
    "name.basics.tsv.gz";
    "title.crew.tsv.gz" ].

(** The three values [run_pipeline] computes for a file name. *)
Definition file_url (filename : string) : string := BASE_URL +:+ filename.
Definition gz_path (filename : string) : Path := OUTPUT_DIR /: filename.
Definition tsv_path (filename : string) : Path :=
  OUTPUT_DIR /: Str.replace filename ".gz" "".

(** ** Exceptions, results and the world *)

Abbreviation bytes := (list byte).

(** The exceptions the library calls of the script raise.  Every one of them
    derives from Python's [Exception]. *)
Inductive exn : Type :=
  (* requests.exceptions.RequestException and subclasses *)
  | HTTPError (status : Z)
  | ConnectionError
  | Timeout
  | ChunkedEncodingError
  (* OSError and subclasses *)
  | FileNotFoundError
  | FileExistsError
  | NotADirectoryError
  | IsADirectoryError
  | PermissionError
  | BadGzipFile
  (* others *)
  | EOFError
  | ZlibError
  | ValueError.

Global Instance exn_eq_dec : EqDecision exn.
Proof. solve_decision. Defined.

(** [isinstance(e, requests.exceptions.RequestException)] *)
Definition is_RequestException (e : exn) : bool :=
  match e with
  | HTTPError _ | ConnectionError | Timeout | ChunkedEncodingError => true
  | _ => false
  end.

(** [isinstance(e, OSError)] *)
Definition is_OSError (e : exn) : bool :=
  match e with
  | FileNotFoundError | FileExistsError | NotADirectoryError
  | IsADirectoryError | PermissionError | BadGzipFile
  | ConnectionError | Timeout | ChunkedEncodingError | HTTPError _ => true
  | EOFError | ZlibError | ValueError => false
  end.

(** [isinstance(e, Exception)] *)
Definition is_Exception (e : exn) : bool :=
  match e with
  | HTTPError _ | ConnectionError | Timeout | ChunkedEncodingError
  | FileNotFoundError | FileExistsError | NotADirectoryError
  | IsADirectoryError | PermissionError | BadGzipFile
  | EOFError | ZlibError | ValueError => true
  end.

Inductive result (A : Type) : Type :=
  | Ok (a : A)
  | Raise (e : exn).
Arguments Ok {A} a.
Arguments Raise {A} e.

(** A node of the file system: a regular file with its content, or a
    directory. *)
Inductive inode : Type :=
  | IFile (data : bytes)
  | IDir.

(** The records the script hands to its logger, one constructor per call. *)
Inductive message : Type :=
  | Starting_download (url : string)
  | Download_complete (name : string)
  | Network_error (url : string) (e : exn)
  | Extracting (name out_name : string)
  | Extraction_complete (name : string)
  | Failed_to_extract (p : Path) (e : exn)
  | Skipping (filename : string)
  | Pipeline_failed (filename : string).

Inductive level : Type := INFO | ERROR.

(** Observable actions, in the order they happen. *)
Inductive event : Type :=
  | EvLog (l : level) (m : message)
  | EvGet (url : string)        (* an HTTP request is sent *)
  | EvCreate (p : Path)         (* a file is created or truncated *)
  | EvWrite (p : Path)          (* bytes are appended to an open file *)
  | EvUnlink (p : Path)         (* a file is removed *)
  | EvMkdir (p : Path).         (* a directory is created *)

Record world : Type := World {
  fs : gmap Path inode;
  trace : list event
}.

(** What the outside gives the script. *)
Record response : Type := Response {
  status_code : Z;
  body_chunks : list bytes;        (* what [iter_content] yields *)
  body_abort : option exn          (* raised by the iterator after them *)
}.

Inductive http_result : Type :=
  | ConnFail (e : exn)             (* [requests.get] itself raises *)
  | Connected (r : response).

Inductive gz_result : Type :=
  | GzOk (out : bytes)                    (* a valid stream and its content *)
  | GzFail (written : bytes) (e : exn).   (* output produced before the error *)

Record env : Type := Env {
  requests_get : string → http_result;
  gunzip : bytes → gz_result;
  unlink_fault : Path → option exn   (* the system refuses to remove the file *)
}.

(** ** The monad: state passing with exceptions; the state survives a raise *)

Definition IO (A : Type) : Type := world → result A * world.

Global Instance IO_ret : MRet IO := λ A a w, (Ok a, w).

Global Instance IO_bind : MBind IO := λ A B f m w,
  match m w with
  | (Ok a, w') => f a w'
  | (Raise e, w') => (Raise e, w')
  end.

Definition raise {A} (e : exn) : IO A := λ w, (Raise e, w).

(** [try: m except <handles> as e: h e] *)
Definition try_except {A} (m : IO A) (handles : exn → bool) (h : exn → IO A) : IO A :=
  λ w,
    match m w with
    | (Ok a, w') => (Ok a, w')
    | (Raise e, w') => if handles e then h e w' else (Raise e, w')
    end.

Definition emit (ev : event) : IO unit :=
  λ w, (Ok tt, {| fs := fs w; trace := trace w ++ [ev] |}).

Definition logger_info (m : message) : IO unit := emit (EvLog INFO m).
Definition logger_error (m : message) : IO unit := emit (EvLog ERROR m).

(** [for x in xs: body x] *)
Fixpoint for_each {A} (xs : list A) (body : A → IO unit) : IO unit :=
  match xs with
  | [] => mret tt
  | x :: xs' => body x ;; for_each xs' body
  end.

(** ** The file system as the operating system resolves it *)

Module OS.

(** The working directory and the anchor always exist. *)
Definition is_root (p : Path) : bool := bool_decide (p = [] ∨ p = ["/"]).

Definition node_at (m : gmap Path inode) (p : Path) : option inode :=
  if is_root p then Some IDir else m !! p.

(** Path resolution, one component at a time from [cur]: a missing
    component is ENOENT, a file used as a directory is ENOTDIR. *)
Fixpoint walk (m : gmap Path inode) (cur : Path) (rest : list string) : result inode :=
  match rest with
  | [] =>
      match node_at m cur with
      | Some n => Ok n
      | None => Raise FileNotFoundError
      end
  | c :: rest' =>
      match node_at m cur with
      | Some IDir => walk m (cur ++ [c]) rest'
      | Some (IFile _) => Raise NotADirectoryError
      | None => Raise FileNotFoundError
      end
  end.

Definition stat (m : gmap Path inode) (p : Path) : result inode := walk m [] p.

(** [Path.exists()] and [Path.is_dir()]: a failing [stat] is [False]. *)
Definition path_exists (p : Path) : IO bool :=
  λ w, (Ok (match stat (fs w) p with Ok _ => true | Raise _ => false end), w).

Definition is_dir (p : Path) : IO bool :=
  λ w, (Ok (match stat (fs w) p with Ok IDir => true | _ => false end), w).

(** The content of a regular file. *)
Definition file_data (m : gmap Path inode) (p : Path) : bytes :=
  match m !! p with
  | Some (IFile d) => d
  | _ => []
  end.

(** [open(p, 'rb')] *)
Definition open_rb (p : Path) : IO unit :=
  λ w,
    match stat (fs w) p with
    | Ok (IFile _) => (Ok tt, w)
    | Ok IDir => (Raise IsADirectoryError, w)
    | Raise e => (Raise e, w)
    end.

(** [open(p, 'wb')]: creates the file, or truncates it. *)
Definition open_wb (p : Path) : IO unit :=
  λ w,
    match stat (fs w) (PurePath.parent p) with
    | Raise e => (Raise e, w)
    | Ok (IFile _) => (Raise NotADirectoryError, w)
    | Ok IDir =>
        match node_at (fs w) p with
        | Some IDir => (Raise IsADirectoryError, w)
        | _ => (Ok tt, {| fs := <[p := IFile []]> (fs w);
                          trace := trace w ++ [EvCreate p] |})
        end
    end.

(** [f.write(data)] on a file opened at [p]. *)
Definition write (p : Path) (data : bytes) : IO unit :=
  λ w, (Ok tt, {| fs := <[p := IFile (file_data (fs w) p ++ data)]> (fs w);
                  trace := trace w ++ [EvWrite p] |}).

(** What a reader opened at [p] sees when it reads to the end. *)
Definition read_all (p : Path) : IO bytes :=
  λ w, (Ok (file_data (fs w) p), w).

(** [os.remove(p)] *)
Definition remove (E : env) (p : Path) : IO unit :=
  λ w,
    match stat (fs w) p with
    | Raise e => (Raise e, w)
    | Ok IDir => (Raise IsADirectoryError, w)
    | Ok (IFile _) =>
        match unlink_fault E p with
        | Some e => (Raise e, w)
        | None => (Ok tt, {| fs := delete p (fs w);
                             trace := trace w ++ [EvUnlink p] |})
        end
    end.

(** [os.mkdir(p)] *)
Definition mkdir (p : Path) : IO unit :=
  λ w,
    match stat (fs w) (PurePath.parent p) with
    | Raise e => (Raise e, w)
    | Ok (IFile _) => (Raise NotADirectoryError, w)
    | Ok IDir =>
        match node_at (fs w) p with
        | Some _ => (Raise FileExistsError, w)
        | None => (Ok tt, {| fs := <[p := IDir]> (fs w);
                             trace := trace w ++ [EvMkdir p] |})
        end
    end.

End OS.

(** ** [pathlib.Path.mkdir] *)

Module Pathlib.

(** [p.mkdir(parents=False, exist_ok=True)] *)
Definition mkdir_exist_ok (p : Path) : IO unit :=
  try_except (OS.mkdir p) is_OSError
    (λ e,
       if bool_decide (e = FileNotFoundError) then raise e
       else
         d ← OS.is_dir p;
         if d : bool then mret tt else raise e).

(** [p.mkdir(parents=True, exist_ok=True)], by recursion on the parts of
    [p] in reverse: the recursive call is on [p.parent]. *)
Fixpoint mkdir_parents_rev (rp : list string) : IO unit :=
  let p := rev rp in
  try_except (OS.mkdir p) is_OSError
    (λ e,
       if bool_decide (e = FileNotFoundError) then
         match rp with
         | [] => raise e
         | _ :: rp' =>
             if bool_decide (PurePath.parent p = p) then raise e
             else mkdir_parents_rev rp' ;; mkdir_exist_ok p
         end
       else
         d ← OS.is_dir p;
         if d : bool then mret tt else raise e).

Definition mkdir_parents_exist_ok (p : Path) : IO unit :=
  mkdir_parents_rev (rev p).

End Pathlib.

(** ** The script *)

(** [requests.get(url, stream=True)] *)
Definition http_get (E : env) (url : string) : IO response :=
  emit (EvGet url) ;;
  match requests_get E url with
  | ConnFail e => raise e
  | Connected r => mret r
  end.

(** [response.raise_for_status()]: client and server errors raise. *)
Definition raise_for_status (r : response) : IO unit :=
  if bool_decide (400 ≤ status_code r < 600)%Z
  then raise (HTTPError (status_code r))
  else mret tt.

(** [for chunk in response.iter_content(chunk_size=8192): body chunk] *)
Definition iter_content (r : response) (body : bytes → IO unit) : IO unit :=
  for_each (body_chunks r) body ;;
  match body_abort r with
  | Some e => raise e
  | None => mret tt
  end.

Definition download_file (E : env) (url : string) (dest_path : Path) : IO unit :=
  logger_info (Starting_download url) ;;
  try_except
    (response ← http_get E url;
     raise_for_status response ;;
     OS.open_wb dest_path ;;
     iter_content response (λ chunk, OS.write dest_path chunk) ;;
     logger_info (Download_complete (PurePath.name dest_path)))
    is_RequestException
    (λ e, logger_error (Network_error url e) ;; raise e).

(** [file_path.with_suffix('')] *)
Definition with_suffix_empty (p : Path) : IO Path :=
  match PurePath.with_suffix_empty p with
  | Some q => mret q
  | None => raise ValueError
  end.

(** [shutil.copyfileobj(f_in, f_out)] with [f_in] a gzip reader on
    [file_path] and [f_out] the file opened at [output_path]: the reader sees
    the archive as it is once both files are open. *)
Definition copyfileobj_gunzip (E : env) (file_path output_path : Path) : IO unit :=
  data ← OS.read_all file_path;
  match gunzip E data with
  | GzOk out => OS.write output_path out
  | GzFail written e => OS.write output_path written ;; raise e
  end.

Definition extract_gzip (E : env) (file_path : Path) : IO unit :=
  output_path ← with_suffix_empty file_path;
  logger_info (Extracting (PurePath.name file_path) (PurePath.name output_path)) ;;
  try_except
    (OS.open_rb file_path ;;
     OS.open_wb output_path ;;
     copyfileobj_gunzip E file_path output_path ;;
     OS.remove E file_path ;;
     logger_info (Extraction_complete (PurePath.name file_path)))
    is_Exception
    (λ e, logger_error (Failed_to_extract file_path e) ;; raise e).

(** The body of the loop of [run_pipeline]. *)
Definition pipeline_body (E : env) (filename : string) : IO unit :=
  present ← OS.path_exists (tsv_path filename);
  if present : bool then logger_info (Skipping filename)
  else
    try_except
      (download_file E (file_url filename) (gz_path filename) ;;
       extract_gzip E (gz_path filename))
      is_Exception
      (λ _, logger_error (Pipeline_failed filename)).

(** [run_pipeline] with the list of file names as a parameter. *)
Definition run_pipeline_over (E : env) (files : list string) : IO unit :=
  Pathlib.mkdir_parents_exist_ok OUTPUT_DIR ;;
  for_each files (pipeline_body E).

Definition run_pipeline (E : env) : IO unit :=
  run_pipeline_over E FILES_TO_DOWNLOAD.

(** ** A small environment to run the model on

    A stand-in codec: the two gzip magic bytes followed by the payload is a
    valid stream; an empty input is an empty stream (the gzip reader returns
    end of file when there is no header to read); anything else is rejected
    before any output. *)

Module Sample.

Definition stored_gunzip (data : bytes) : gz_result :=
  match data with
  | [] => GzOk []
  | x1f :: x8b :: payload => GzOk payload
  | _ => GzFail [] BadGzipFile
  end.

Definition payload : bytes := [x68; x69].                 (* "hi" *)
Definition archive : bytes := x1f :: x8b :: payload.
Definition garbage : bytes := [x6e; x6f].                 (* "no" *)

(** Every location serves [archive] in two chunks. *)
Definition serve_ok (_ : string) : http_result :=
  Connected (Response 200 [[x1f; x8b]; payload] None).

(** The ratings file is missing on the server. *)
Definition serve_ratings_404 (url : string) : http_result :=
  if String.eqb url (file_url "title.ratings.tsv.gz")
  then Connected (Response 404 [garbage] None)
  else serve_ok url.

Definition E_ok : env := Env serve_ok stored_gunzip (λ _, None).
Definition E_404 : env := Env serve_ratings_404 stored_gunzip (λ _, None).
Definition E_locked : env := Env serve_ok stored_gunzip (λ _, Some PermissionError).

Definition empty_world : world := World ∅ [].

(** A regular file named [data] sits where the output directory goes. *)
Definition blocked_world : world := World {[ ["data"] := IFile [] ]} [].

(** The output directory exists and is empty. *)
Definition output_dirs : gmap Path inode :=
  list_to_map [ (["data"], IDir); (["data"; "raw"], IDir);
                (["data"; "raw"; "imdb_data"], IDir) ].

Definition ready_world : world := World output_dirs [].

(** The archive of the first resource is on disk, valid or corrupt. *)
Definition archived_world : world :=
  World (<[gz_path "title.basics.tsv.gz" := IFile archive]> output_dirs) [].

Definition corrupt_world : world :=
  World (<[gz_path "title.basics.tsv.gz" := IFile garbage]> output_dirs) [].

(** The first resource has both its extracted file and a stale archive. *)
Definition stale_world : world :=
  World (<[tsv_path "title.basics.tsv.gz" := IFile payload]>
           (<[gz_path "title.basics.tsv.gz" := IFile archive]> output_dirs)) [].

End Sample.

(** Environments and worlds in which something goes wrong. *)

Module Faulty.

(** The server cannot be reached. *)
Definition E_down : env :=
  Env (λ _, ConnFail ConnectionError) Sample.stored_gunzip (λ _, None).

(** The transfer is cut after the first chunk. *)
Definition E_cut : env :=
  Env (λ _, Connected (Response 200 [[x1f]] (Some ChunkedEncodingError)))
      Sample.stored_gunzip (λ _, None).

(** Every location serves two bytes that are no gzip stream. *)
Definition E_garbage : env :=
  Env (λ _, Connected (Response 200 [Sample.garbage] None))
      Sample.stored_gunzip (λ _, None).


(** All four extracted files are on disk. *)
Definition complete_world : world :=
  World (foldr (λ f m, <[tsv_path f := IFile Sample.payload]> m)
               Sample.output_dirs FILES_TO_DOWNLOAD) [].

End Faulty.

(** * Vocabulary of the statements *)

(** The guarded block of the loop body: fetch, then extract, any exception
    logged and dropped. *)
Definition fetch_then_extract (E : env) (filename : string) : IO unit :=
  try_except
    (download_file E (file_url filename) (gz_path filename) ;;
     extract_gzip E (gz_path filename))
    is_Exception
    (λ _, logger_error (Pipeline_failed filename)).

(** The world the loop body leaves. *)
Definition step (E : env) (w : world) (filename : string) : world :=
  (pipeline_body E filename w).2.

(** The worlds a sequence of runs, one per environment, goes through. *)
Fixpoint runs (Es : list env) (w : world) : world :=
  match Es with
  | [] => w
  | E :: Es' => runs Es' (run_pipeline E w).2
  end.

(** The status codes [raise_for_status] raises on. *)
Definition is_error_status (r : response) : Prop := (400 ≤ status_code r < 600)%Z.

(** The world with one more event in its trace. *)
Definition logged (ev : event) (w : world) : world :=
  {| fs := fs w; trace := trace w ++ [ev] |}.

(** The events a computation added to the trace. *)
Definition new_events (w w' : world) : list event :=
  drop (length (trace w)) (trace w').

(** The trace shows that the body ran for a file name: it logged the skip,
    or it logged the start of the download and sent the request. *)
Definition visited (filename : string) (t : list event) : Prop :=
  In (EvLog INFO (Skipping filename)) t ∨
  (In (EvLog INFO (Starting_download (file_url filename))) t ∧
   In (EvGet (file_url filename)) t).

Definition is_error_record (ev : event) : bool :=
  match ev with EvLog ERROR _ => true | _ => false end.


(** A node is recorded at the path. *)
Definition on_disk (w : world) (p : Path) : Prop := is_Some (fs w !! p).

Definition both_on_disk (w : world) (f : string) : Prop :=
  on_disk w (gz_path f) ∧ on_disk w (tsv_path f).


(** The two paths of a resource. *)
Definition own (filename : string) (k : Path) : Prop :=
  k = gz_path filename ∨ k = tsv_path filename.

(** The extracted path of [f] resolves to [n] and its archive path resolves
    as [a] does. *)
Definition settled (f : string) (n : inode) (a : result inode) (w : world) : Prop :=
  OS.stat (fs w) (tsv_path f) = Ok n ∧ OS.stat (fs w) (gz_path f) = a.

(** ** Footprints

    [confined U K m]: whatever [m] does, it changes the file system only at
    paths in [K], sends requests only to locations in [U], and only extends
    the trace.  [builds m]: [m] only adds directories. *)

Definition ev_within (U : string → Prop) (K : Path → Prop) (ev : event) : Prop :=
  match ev with
  | EvLog _ _ => True
  | EvGet u => U u
  | EvCreate p | EvWrite p | EvUnlink p | EvMkdir p => K p
  end.

Definition confined {A} (U : string → Prop) (K : Path → Prop) (m : IO A) : Prop :=
  ∀ w r w', m w = (r, w') →
    (∀ k, ¬ K k → fs w' !! k = fs w !! k) ∧
    ∃ t, trace w' = trace w ++ t ∧ Forall (ev_within U K) t.


Definition anywhere {A} (_ : A) : Prop := True.
Definition nowhere {A} (_ : A) : Prop := False.

(** No event of [t] is about the resource: no request to its location, no
    action on its two paths. *)
Definition untouched (filename : string) (t : list event) : Prop :=
  Forall (ev_within (λ u, u ≠ file_url filename) (λ k, ¬ own filename k)) t.

(** An event the fetcher may produce once its request is sent: a log
    record, or the creation of or a write to its destination. *)
Definition writes_only (dest : Path) (ev : event) : Prop :=
  match ev with
  | EvLog _ _ => True
  | EvCreate p | EvWrite p => p = dest
  | EvGet _ | EvUnlink _ | EvMkdir _ => False
  end.

(** The path [extract_gzip] writes to: the archive path without its last
    suffix, the archive path itself when its name has none. *)
Definition output_of (p : Path) : Path :=
  default p (PurePath.with_suffix_empty p).

(** The location of [f] answers with a status that is no error and streams
    [body] to its end. *)
Definition serves (E : env) (f : string) (body : bytes) : Prop :=
  ∃ r, requests_get E (file_url f) = Connected r ∧
       ¬ is_error_status r ∧
       body_abort r = None ∧
       concat (body_chunks r) = body.



(** [pat in s]: the pattern occurs somewhere in the string. *)
Fixpoint occurs (pat s : string) : bool :=
  Str.startswith pat s ||
  match s with
  | EmptyString => false
  | String _ s' => occurs pat s'
  end.

(** ** Tactics for running the monad by hand *)

Ltac io_unfold :=
  unfold mbind, IO_bind, mret, IO_ret, raise, try_except,
    logger_info, logger_error, emit in *.

Ltac io_simpl := cbn beta iota zeta delta [fs trace fst snd] in *.

(** * Reasoning principles *)

(** ** The model on concrete names *)

Example OUTPUT_DIR_parts : OUTPUT_DIR = ["data"; "raw"; "imdb_data"].
Proof. reflexivity. Qed.

Example tsv_path_basics :
  tsv_path "title.basics.tsv.gz" = ["data"; "raw"; "imdb_data"; "title.basics.tsv"].
Proof. reflexivity. Qed.

Example with_suffix_basics :
  PurePath.with_suffix_empty (gz_path "title.basics.tsv.gz")
  = Some ["data"; "raw"; "imdb_data"; "title.basics.tsv"].
Proof. reflexivity. Qed.

(** [replace] removes every occurrence, [with_suffix] only the last suffix:
    the two agree on the four file names, not on every name. *)
Example replace_all_occurrences : Str.replace "a.gz.tsv.gz" ".gz" "" = "a.tsv".
Proof. reflexivity. Qed.

Example with_suffix_last_only :
  PurePath.with_suffix_empty ["a.gz.tsv.gz"] = Some ["a.gz.tsv"].
Proof. reflexivity. Qed.

Example with_suffix_dotfile : PurePath.with_suffix_empty [".gz"] = Some [".gz"].
Proof. reflexivity. Qed.

(** ** The monad *)

Section monad_laws.
Context {A B : Type}.
Implicit Types (m : IO A) (f : A → IO B) (w : world).

Lemma bind_Ok m f w a w' : m w = (Ok a, w') → (m ≫= f) w = f a w'.
Proof. intros H. unfold mbind, IO_bind. by rewrite H. Qed.

Lemma bind_Raise m f w e w' : m w = (Raise e, w') → (m ≫= f) w = (Raise e, w').
Proof. intros H. unfold mbind, IO_bind. by rewrite H. Qed.

Lemma bind_inv m f w r w'' :
  (m ≫= f) w = (r, w'') →
  (∃ a w', m w = (Ok a, w') ∧ f a w' = (r, w'')) ∨
  (∃ e, m w = (Raise e, w'') ∧ r = Raise e).
Proof.
  unfold mbind, IO_bind. destruct (m w) as [[a|e] w'] eqn:Hm; intros H.
  - left. eauto.
  - right. exists e. by inversion H.
Qed.
End monad_laws.

Lemma is_Exception_all e : is_Exception e = true.
Proof. by destruct e. Qed.

(** ** Path resolution *)

Module OSFacts.
Import OS.

Implicit Types (m : gmap Path inode) (p q cur : Path) (n : inode).

Lemma node_at_insert_ne m q n p : q ≠ p → node_at (<[q:=n]> m) p = node_at m p.
Proof. intros. unfold node_at. by rewrite lookup_insert_ne. Qed.

Lemma node_at_delete_ne m q p : q ≠ p → node_at (delete q m) p = node_at m p.
Proof. intros. unfold node_at. by rewrite lookup_delete_ne. Qed.

(** Resolution from [cur] looks only at [cur] extended by the leading
    components of the rest. *)
Lemma walk_ext m m' rest : ∀ cur,
  (∀ k, node_at m (cur ++ take k rest) = node_at m' (cur ++ take k rest)) →
  walk m cur rest = walk m' cur rest.
Proof.
  induction rest as [|c rest IH]; intros cur H; simpl.
  - specialize (H 0). simpl in H. rewrite app_nil_r in H. by rewrite H.
  - pose proof (H 0) as H0. simpl in H0. rewrite app_nil_r in H0. rewrite <- H0.
    destruct (node_at m cur) as [[d|]|]; try done.
    apply IH. intros k. specialize (H (S k)). simpl in H.
    by rewrite <- !app_assoc.
Qed.

Lemma walk_snoc m rest : ∀ cur c,
  walk m cur (rest ++ [c]) =
    match walk m cur rest with
    | Ok IDir =>
        match node_at m (cur ++ rest ++ [c]) with
        | Some n => Ok n
        | None => Raise FileNotFoundError
        end
    | Ok (IFile _) => Raise NotADirectoryError
    | Raise e => Raise e
    end.
Proof.
  induction rest as [|c' rest IH]; intros cur c; simpl.
  - destruct (node_at m cur) as [[d|]|]; done.
  - destruct (node_at m cur) as [[d|]|]; try done.
    rewrite IH. by rewrite <- !app_assoc.
Qed.

Lemma walk_Ok_node m rest : ∀ cur n,
  walk m cur rest = Ok n → node_at m (cur ++ rest) = Some n.
Proof.
  induction rest as [|c rest IH]; intros cur n; simpl.
  - rewrite app_nil_r. destruct (node_at m cur); naive_solver.
  - destruct (node_at m cur) as [[d|]|]; try done.
    intros H. apply IH in H. by rewrite <- app_assoc in H.
Qed.

(** A failing resolution is ENOENT, or ENOTDIR because of a regular file
    on the way. *)
Lemma walk_Raise m rest : ∀ cur e,
  walk m cur rest = Raise e →
  e = FileNotFoundError ∨
  (e = NotADirectoryError ∧
   ∃ k d, k < length rest ∧ node_at m (cur ++ take k rest) = Some (IFile d)).
Proof.
  induction rest as [|c rest IH]; intros cur e; simpl.
  - destruct (node_at m cur); naive_solver.
  - destruct (node_at m cur) as [[d|]|] eqn:Hn; [| |naive_solver].
    + intros [= <-]. right. split; [done|]. exists 0, d. simpl.
      rewrite app_nil_r. split; [lia|done].
    + intros H. apply IH in H as [->|(-> & k & d & Hk & Hd)]; [by left|].
      right. split; [done|]. exists (S k), d. simpl.
      rewrite <- app_assoc in Hd. split; [lia|done].
Qed.

Lemma stat_Ok_node m p n : stat m p = Ok n → node_at m p = Some n.
Proof. apply (walk_Ok_node m p []). Qed.

Lemma stat_snoc m q c :
  stat m (q ++ [c]) =
    match stat m q with
    | Ok IDir =>
        match node_at m (q ++ [c]) with
        | Some n => Ok n
        | None => Raise FileNotFoundError
        end
    | Ok (IFile _) => Raise NotADirectoryError
    | Raise e => Raise e
    end.
Proof. apply (walk_snoc m q [] c). Qed.

(** Resolution of [p] is not affected by a change at a key that is not a
    prefix of [p]. *)
Lemma stat_ext m m' p :
  (∀ q, q `prefix_of` p → node_at m q = node_at m' q) → stat m p = stat m' p.
Proof.
  intros H. apply walk_ext. intros k. simpl. apply H.
  exists (drop k p). by rewrite take_drop.
Qed.

Lemma stat_insert_ne m q n p :
  ¬ q `prefix_of` p → stat (<[q:=n]> m) p = stat m p.
Proof.
  intros H. apply stat_ext. intros r Hr. apply node_at_insert_ne.
  by intros ->.
Qed.

Lemma stat_delete_ne m q p :
  ¬ q `prefix_of` p → stat (delete q m) p = stat m p.
Proof.
  intros H. apply stat_ext. intros r Hr. apply node_at_delete_ne.
  by intros ->.
Qed.

Lemma stat_Raise m p e :
  stat m p = Raise e →
  e = FileNotFoundError ∨
  (e = NotADirectoryError ∧ ∃ q d, q `prefix_of` p ∧ m !! q = Some (IFile d)).
Proof.
  intros H. apply walk_Raise in H as [->|(-> & k & d & Hk & Hd)]; [by left|].
  right. split; [done|]. exists (take k p), d. simpl in Hd. split.
  - exists (drop k p). by rewrite take_drop.
  - unfold node_at in Hd. by destruct (is_root (take k p)).
Qed.

(** Two distinct paths of the same length: neither is a prefix of the
    other. *)
Lemma sibling_not_prefix p q : length q = length p → q ≠ p → ¬ q `prefix_of` p.
Proof.
  intros Hlen Hne [r ->]. rewrite length_app in Hlen.
  destruct r; [by rewrite app_nil_r in Hne|]. simpl in Hlen. lia.
Qed.

Lemma longer_not_prefix p q : length p < length q → ¬ q `prefix_of` p.
Proof. intros Hlen [r ->]. rewrite length_app in Hlen. lia. Qed.

End OSFacts.

(** ** The fetcher *)

(** A response with a client or server error status: the request is sent,
    the error is logged and re-raised, and nothing else happens. *)
Lemma download_file_error_status E url dest r w :
  requests_get E url = Connected r →
  is_error_status r →
  download_file E url dest w =
    (Raise (HTTPError (status_code r)),
     {| fs := fs w;
        trace := trace w ++ [EvLog INFO (Starting_download url); EvGet url;
                             EvLog ERROR (Network_error url (HTTPError (status_code r)))] |}).
Proof.
  intros Hget Hst. unfold download_file, http_get, raise_for_status.
  io_unfold. simpl. rewrite Hget. simpl.
  rewrite bool_decide_eq_true_2 by exact Hst. simpl.
  by rewrite <- !app_assoc.
Qed.

(** Writing the chunks of a body one after the other appends their
    concatenation. *)
Lemma write_chunks_spec p chunks : ∀ w d,
  fs w !! p = Some (IFile d) →
  ∃ w', for_each chunks (λ chunk, OS.write p chunk) w = (Ok tt, w') ∧
        fs w' = <[p := IFile (d ++ concat chunks)]> (fs w) ∧
        trace w' = trace w ++ map (λ _, EvWrite p) chunks.
Proof.
  induction chunks as [|c chunks IH]; intros w d Hd; simpl.
  - exists w. rewrite !app_nil_r. split; [done|]. split; [|done].
    by rewrite insert_id.
  - set (w1 := {| fs := <[p := IFile (d ++ c)]> (fs w); trace := trace w ++ [EvWrite p] |}).
    destruct (IH w1 (d ++ c)) as (w' & Hrun & Hfs & Htr).
    { simpl. by rewrite lookup_insert_eq. }
    exists w'. split; [|split].
    + erewrite bind_Ok; [exact Hrun|]. unfold OS.write, OS.file_data. by rewrite Hd.
    + rewrite Hfs. simpl. by rewrite insert_insert_eq, <- app_assoc.
    + rewrite Htr. simpl. by rewrite <- app_assoc.
Qed.

(** What a completed download has done. *)
Lemma download_file_Ok_inv E url dest w w1 :
  download_file E url dest w = (Ok tt, w1) →
  ∃ r, requests_get E url = Connected r ∧
       ¬ is_error_status r ∧
       body_abort r = None ∧
       OS.stat (fs w) (PurePath.parent dest) = Ok IDir ∧
       OS.node_at (fs w) dest ≠ Some IDir ∧
       fs w1 = <[dest := IFile (concat (body_chunks r))]> (fs w).
Proof.
  unfold download_file, http_get, raise_for_status, iter_content, OS.open_wb.
  io_unfold. simpl. destruct (requests_get E url) as [e|r]; simpl.
  { destruct (is_RequestException e); simpl; discriminate. }
  case_bool_decide as Hst; simpl; [discriminate|].
  destruct (OS.stat (fs w) (PurePath.parent dest)) as [[d|]|e] eqn:Hpar; simpl;
    try (destruct (is_RequestException _); simpl; discriminate).
  { discriminate. }
  destruct (OS.node_at (fs w) dest) as [[d|]|] eqn:Hnode; simpl;
    try discriminate.
  all: match goal with
       | |- context [for_each ?cs (λ c, OS.write ?p c) ?w0] =>
           destruct (write_chunks_spec p cs w0 []) as (w' & Hrun & Hfs & Htr);
             [simpl; by rewrite lookup_insert_eq|]; rewrite Hrun
       end.
  all: destruct (body_abort r) as [e|] eqn:Hab; simpl;
    [destruct (is_RequestException e); simpl; discriminate|].
  all: intros [= <-]; exists r; simpl; rewrite Hfs; simpl;
    rewrite insert_insert_eq; split_and!; try done.
Qed.

(** ** The extractor *)

Module PathFacts.
Import PurePath.

Lemma length_take n s : (String.length (Str.take n s) ≤ n)%nat.
Proof.
  unfold Str.take. revert s. induction n as [|n IH]; intros [|c s]; simpl; try lia.
  specialize (IH s). lia.
Qed.

Lemma name_snoc p : name p ≠ "" → p = removelast p ++ [name p].
Proof.
  unfold name. destruct (last p) as [n|] eqn:Hl; [|done].
  apply last_Some in Hl as [l ->]. rewrite removelast_last.
  by destruct (String.eqb n "/").
Qed.

(** A path whose name carries a suffix: [with_suffix('')] yields a sibling
    with a strictly shorter name. *)
Lemma with_suffix_sibling p :
  suffix p ≠ "" →
  ∃ stem, with_suffix_empty p = Some (removelast p ++ [stem]) ∧
          stem ≠ name p ∧
          p = removelast p ++ [name p].
Proof.
  intros Hsuf.
  assert (name p ≠ "") as Hname.
  { intros Hn. apply Hsuf. unfold suffix. by rewrite Hn. }
  unfold with_suffix_empty.
  destruct (String.eqb_spec (name p) "") as [|_]; [done|].
  destruct (String.eqb_spec (suffix p) "") as [|_]; [done|].
  eexists. split; [done|]. split; [|by apply name_snoc].
  intros Heq. apply (f_equal String.length) in Heq.
  pose proof (length_take (String.length (name p) - String.length (suffix p)) (name p)).
  destruct (name p) as [|c n]; [done|]. destruct (suffix p) as [|c' s']; [done|].
  simpl in *. lia.
Qed.

Lemma with_suffix_facts p out :
  suffix p ≠ "" → with_suffix_empty p = Some out →
  out ≠ p ∧ length out = length p ∧ removelast out = removelast p ∧
  p = removelast p ++ [name p].
Proof.
  intros Hsuf Hout. destruct (with_suffix_sibling p Hsuf) as (stem & Hw & Hne & Hp).
  rewrite Hw in Hout. injection Hout as <-. split_and!; [| | |done].
  - intros Heq. rewrite Hp in Heq at 2. by apply app_inv_head in Heq as [= ->].
  - rewrite Hp at 2. by rewrite !length_app.
  - by rewrite removelast_last.
Qed.

End PathFacts.

(** Every way [extract_gzip] can end on an existing archive whose name has a
    suffix, with the file system it leaves behind. *)
Lemma extract_gzip_cases E p out data w :
  PurePath.suffix p ≠ "" →
  PurePath.with_suffix_empty p = Some out →
  OS.stat (fs w) p = Ok (IFile data) →
  let started := EvLog INFO (Extracting (PurePath.name p) (PurePath.name out)) in
  let failed e := EvLog ERROR (Failed_to_extract p e) in
  ∃ r w', extract_gzip E p w = (r, w') ∧
    ((∃ e, r = Raise e ∧ OS.node_at (fs w) out = Some IDir ∧ fs w' = fs w ∧
           trace w' = trace w ++ [started; failed e]) ∨
     (OS.node_at (fs w) out ≠ Some IDir ∧
      ((∃ written e, gunzip E data = GzFail written e ∧ r = Raise e ∧
                     fs w' = <[out := IFile written]> (fs w) ∧
                     trace w' = trace w ++ [started; EvCreate out; EvWrite out; failed e]) ∨
       (∃ o e, gunzip E data = GzOk o ∧ unlink_fault E p = Some e ∧ r = Raise e ∧
               fs w' = <[out := IFile o]> (fs w) ∧
               trace w' = trace w ++ [started; EvCreate out; EvWrite out; failed e]) ∨
       (∃ o, gunzip E data = GzOk o ∧ unlink_fault E p = None ∧ r = Ok tt ∧
             fs w' = delete p (<[out := IFile o]> (fs w)) ∧
             trace w' = trace w ++ [started; EvCreate out; EvWrite out; EvUnlink p;
                                    EvLog INFO (Extraction_complete (PurePath.name p))])))).
Proof.
  intros Hsuf Hout Hstat started failed. subst started failed.
  destruct (PathFacts.with_suffix_facts p out Hsuf Hout) as (Hne & Hlen & Hrl & Hp).
  pose proof (OSFacts.stat_Ok_node _ _ _ Hstat) as Hnode.
  assert (fs w !! p = Some (IFile data)) as Hlook.
  { unfold OS.node_at in Hnode. by destruct (OS.is_root p). }
  assert (OS.stat (fs w) (removelast p) = Ok IDir) as Hdir.
  { rewrite Hp, OSFacts.stat_snoc in Hstat.
    destruct (OS.stat (fs w) (removelast p)) as [[?|]|?]; done. }
  assert (∀ n, OS.stat (<[out := n]> (fs w)) p = Ok (IFile data)) as Hframe.
  { intros n. rewrite OSFacts.stat_insert_ne; [done|].
    by apply OSFacts.sibling_not_prefix. }
  unfold extract_gzip, with_suffix_empty. rewrite Hout.
  unfold copyfileobj_gunzip, OS.open_rb, OS.open_wb, OS.read_all, OS.write, OS.remove.
  io_unfold. io_simpl. rewrite Hstat. io_simpl.
  destruct (OS.node_at (fs w) out) as [[d|]|] eqn:Hno.
  2:{ (* a directory sits at the output path *)
      destruct (OS.stat (fs w) (PurePath.parent out)) as [[?|]|?]; io_simpl;
        rewrite ?is_Exception_all; io_simpl; rewrite <- ?app_assoc;
        do 2 eexists; (split; [reflexivity|]); left; eauto 10. }
  all: assert (PurePath.parent out = removelast p) as ->
    by (rewrite <- Hrl; unfold PurePath.parent, OS.node_at, OS.is_root in *;
        by case_bool_decide).
  all: rewrite Hdir; io_simpl.
  all: unfold OS.file_data at 1; rewrite lookup_insert_ne, Hlook by done.
  all: destruct (gunzip E data) as [o|written e] eqn:Hgz; io_simpl.
  all: unfold OS.file_data; rewrite ?lookup_insert_eq, ?insert_insert_eq; io_simpl.
  all: rewrite ?Hframe, ?is_Exception_all; io_simpl.
  all: try (destruct (unlink_fault E p) as [e|] eqn:Hul; io_simpl).
  all: rewrite ?is_Exception_all; io_simpl; rewrite <- ?app_assoc.
  all: do 2 eexists; (split; [reflexivity|]); right; (split; [done|]); simpl;
    eauto 14.
Qed.

(** ** Footprints *)

Lemma new_events_app w w' t : trace w' = trace w ++ t → new_events w w' = t.
Proof. intros H. unfold new_events. by rewrite H, drop_app_length. Qed.

Section footprints.
Context (U : string → Prop) (K : Path → Prop).

Lemma confined_pure {A} (m : IO A) :
  (∀ w, ∃ r, m w = (r, w)) → confined U K m.
Proof.
  intros H w r w' Hm. destruct (H w) as [r' Hr]. rewrite Hr in Hm.
  injection Hm as _ <-. split; [done|]. exists []. by rewrite app_nil_r.
Qed.

Lemma confined_ret {A} (a : A) : confined U K (mret a).
Proof. apply confined_pure. intros w. by exists (Ok a). Qed.

Lemma confined_raise {A} e : confined U K (raise e : IO A).
Proof. apply confined_pure. intros w. by exists (Raise e). Qed.

Lemma confined_ret_bind {A B} (a : A) (f : A → IO B) :
  confined U K (f a) → confined U K (mret a ≫= f).
Proof. intros H w r w' Hrun. by apply (H w r w'). Qed.

Lemma confined_raise_bind {A B} e (f : A → IO B) : confined U K (raise e ≫= f).
Proof. apply confined_pure. intros w. by exists (Raise e). Qed.

Lemma confined_trans w1 w2 w3 :
  ((∀ k, ¬ K k → fs w2 !! k = fs w1 !! k) ∧
   ∃ t, trace w2 = trace w1 ++ t ∧ Forall (ev_within U K) t) →
  ((∀ k, ¬ K k → fs w3 !! k = fs w2 !! k) ∧
   ∃ t, trace w3 = trace w2 ++ t ∧ Forall (ev_within U K) t) →
  (∀ k, ¬ K k → fs w3 !! k = fs w1 !! k) ∧
  ∃ t, trace w3 = trace w1 ++ t ∧ Forall (ev_within U K) t.
Proof.
  intros (Hf1 & t1 & Ht1 & HF1) (Hf2 & t2 & Ht2 & HF2). split.
  - intros k Hk. by rewrite Hf2, Hf1.
  - exists (t1 ++ t2). rewrite Ht2, Ht1, <- app_assoc. split; [done|].
    by apply Forall_app.
Qed.

Lemma confined_bind {A B} (m : IO A) (f : A → IO B) :
  confined U K m → (∀ a, confined U K (f a)) → confined U K (m ≫= f).
Proof.
  intros Hm Hf w r w'' Hrun.
  apply bind_inv in Hrun as [(a & w' & H1 & H2)|(e & H1 & ->)].
  - eapply confined_trans; [by eapply Hm|by eapply Hf].
  - by eapply Hm.
Qed.

Lemma confined_try {A} (m : IO A) handles h :
  confined U K m → (∀ e, confined U K (h e)) → confined U K (try_except m handles h).
Proof.
  intros Hm Hh w r w'' Hrun. unfold try_except in Hrun.
  destruct (m w) as [[a|e] w'] eqn:H1.
  - injection Hrun as <- <-. by eapply Hm.
  - destruct (handles e).
    + eapply confined_trans; [by eapply Hm|by eapply Hh].
    + injection Hrun as <- <-. by eapply Hm.
Qed.

Lemma confined_for_each {A} (xs : list A) body :
  (∀ x, x ∈ xs → confined U K (body x)) → confined U K (for_each xs body).
Proof.
  induction xs as [|x xs IH]; intros H; simpl.
  - apply confined_ret.
  - apply confined_bind; [apply H; by left|]. intros _. apply IH.
    intros y Hy. apply H. by right.
Qed.

Lemma confined_emit ev : ev_within U K ev → confined U K (emit ev).
Proof.
  intros Hev w r w' [= <- <-]. split; [done|]. exists [ev]. split; [done|].
  by apply Forall_singleton.
Qed.

Lemma confined_log l m : confined U K (emit (EvLog l m)).
Proof. by apply confined_emit. Qed.

Lemma confined_path_exists p : confined U K (OS.path_exists p).
Proof. apply confined_pure. intros w. by eexists. Qed.

Lemma confined_is_dir p : confined U K (OS.is_dir p).
Proof. apply confined_pure. intros w. by eexists. Qed.

Lemma confined_read_all p : confined U K (OS.read_all p).
Proof. apply confined_pure. intros w. by eexists. Qed.

Lemma confined_open_rb p : confined U K (OS.open_rb p).
Proof.
  apply confined_pure. intros w. unfold OS.open_rb.
  destruct (OS.stat (fs w) p) as [[?|]|?]; by eexists.
Qed.

(** The three operations that change a single node. *)
Lemma confined_update (ev : event) (p : Path) (f : world → gmap Path inode) (w : world) :
  ev_within U K ev → K p → (∀ k, k ≠ p → f w !! k = fs w !! k) →
  (∀ k, ¬ K k → f w !! k = fs w !! k) ∧
  ∃ t, trace w ++ [ev] = trace w ++ t ∧ Forall (ev_within U K) t.
Proof.
  intros Hev Hp Hf. split.
  - intros k Hk. apply Hf. by intros ->.
  - exists [ev]. split; [done|]. by apply Forall_singleton.
Qed.

Lemma confined_same w :
  (∀ k, ¬ K k → fs w !! k = fs w !! k) ∧
  ∃ t, trace w = trace w ++ t ∧ Forall (ev_within U K) t.
Proof. split; [done|]. exists []. by rewrite app_nil_r. Qed.

Lemma confined_open_wb p : K p → confined U K (OS.open_wb p).
Proof.
  intros Hp w r w'. unfold OS.open_wb.
  destruct (OS.stat (fs w) (PurePath.parent p)) as [[?|]|?];
    [intros [= <- <-]; apply confined_same| |intros [= <- <-]; apply confined_same].
  destruct (OS.node_at (fs w) p) as [[?|]|]; intros [= <- <-];
    try apply confined_same.
  all: apply (confined_update (EvCreate p) p (λ w, <[p:=IFile []]> (fs w))); try done.
  all: intros k Hk; by rewrite lookup_insert_ne.
Qed.

Lemma confined_write p data : K p → confined U K (OS.write p data).
Proof.
  intros Hp w r w' [= <- <-].
  apply (confined_update (EvWrite p) p
           (λ w, <[p:=IFile (OS.file_data (fs w) p ++ data)]> (fs w))); try done.
  intros k Hk; by rewrite lookup_insert_ne.
Qed.

Lemma confined_remove E p : K p → confined U K (OS.remove E p).
Proof.
  intros Hp w r w'. unfold OS.remove.
  destruct (OS.stat (fs w) p) as [[?|]|?]; try (intros [= <- <-]; apply confined_same).
  destruct (unlink_fault E p); intros [= <- <-]; [apply confined_same|].
  apply (confined_update (EvUnlink p) p (λ w, delete p (fs w))); try done.
  intros k Hk; by rewrite lookup_delete_ne.
Qed.

Lemma confined_mkdir p : K p → confined U K (OS.mkdir p).
Proof.
  intros Hp w r w'. unfold OS.mkdir.
  destruct (OS.stat (fs w) (PurePath.parent p)) as [[?|]|?];
    try (intros [= <- <-]; apply confined_same).
  destruct (OS.node_at (fs w) p); intros [= <- <-]; [apply confined_same|].
  apply (confined_update (EvMkdir p) p (λ w, <[p:=IDir]> (fs w))); try done.
  intros k Hk; by rewrite lookup_insert_ne.
Qed.

Lemma confined_http_get E url : U url → confined U K (http_get E url).
Proof.
  intros Hu. unfold http_get. apply confined_bind; [by apply confined_emit|].
  intros _. destruct (requests_get E url); [apply confined_raise|apply confined_ret].
Qed.

Lemma confined_download_file E url dest :
  U url → K dest → confined U K (download_file E url dest).
Proof.
  intros Hu Hk. unfold download_file, logger_info, logger_error.
  apply confined_bind; [apply confined_log|]. intros _.
  apply confined_try.
  - apply confined_bind; [by apply confined_http_get|]. intros r.
    apply confined_bind.
    { unfold raise_for_status. case_bool_decide; [apply confined_raise|apply confined_ret]. }
    intros _. apply confined_bind; [by apply confined_open_wb|]. intros _.
    apply confined_bind; [|intros _; apply confined_log].
    unfold iter_content. apply confined_bind.
    + apply confined_for_each. intros c _. by apply confined_write.
    + intros _. destruct (body_abort r); [apply confined_raise|apply confined_ret].
  - intros e. apply confined_bind; [apply confined_log|]. intros _. apply confined_raise.
Qed.

Lemma confined_extract_gzip E p :
  K p → (∀ out, PurePath.with_suffix_empty p = Some out → K out) →
  confined U K (extract_gzip E p).
Proof.
  intros Hp Hout. unfold extract_gzip, with_suffix_empty, logger_info, logger_error.
  destruct (PurePath.with_suffix_empty p) as [out|].
  2:{ apply confined_raise_bind. }
  specialize (Hout out eq_refl). apply confined_ret_bind.
  apply confined_bind; [apply confined_log|]. intros _.
  apply confined_try.
  - apply confined_bind; [apply confined_open_rb|]. intros _.
    apply confined_bind; [by apply confined_open_wb|]. intros _.
    apply confined_bind.
    { unfold copyfileobj_gunzip. apply confined_bind; [apply confined_read_all|].
      intros data. destruct (gunzip E data).
      - by apply confined_write.
      - apply confined_bind; [by apply confined_write|]. intros _. apply confined_raise. }
    intros _. apply confined_bind; [by apply confined_remove|]. intros _.
    apply confined_log.
  - intros e. apply confined_bind; [apply confined_log|]. intros _. apply confined_raise.
Qed.

End footprints.

(** ** Fetch then extract *)

Lemma suffix_not_root p : PurePath.suffix p ≠ "" → OS.is_root p = false.
Proof.
  intros Hsuf. unfold OS.is_root. apply bool_decide_eq_false_2.
  intros [->| ->]; by apply Hsuf.
Qed.

Lemma parent_not_root p : OS.is_root p = false → PurePath.parent p = removelast p.
Proof.
  unfold OS.is_root, PurePath.parent. intros H. by rewrite H.
Qed.

(** Resolution of an entry of a directory that resolves. *)
Lemma stat_child m dir c :
  OS.stat m dir = Ok IDir →
  OS.is_root (dir ++ [c]) = false →
  OS.stat m (dir ++ [c]) =
    match m !! (dir ++ [c]) with
    | Some n => Ok n
    | None => Raise FileNotFoundError
    end.
Proof.
  intros Hdir Hroot. rewrite OSFacts.stat_snoc, Hdir. unfold OS.node_at.
  by rewrite Hroot.
Qed.

Lemma stat_dir_insert_child m dir c n :
  OS.stat (<[dir ++ [c] := n]> m) dir = OS.stat m dir.
Proof.
  apply OSFacts.stat_insert_ne, OSFacts.longer_not_prefix.
  rewrite length_app. simpl. lia.
Qed.

Lemma stat_dir_delete_child m dir c :
  OS.stat (delete (dir ++ [c]) m) dir = OS.stat m dir.
Proof.
  apply OSFacts.stat_delete_ne, OSFacts.longer_not_prefix.
  rewrite length_app. simpl. lia.
Qed.

(** The round trip for any archive path whose name has a suffix. *)
Lemma fetch_extract_round_trip E url p out r o w w1 w2 :
  PurePath.suffix p ≠ "" →
  PurePath.with_suffix_empty p = Some out →
  requests_get E url = Connected r →
  gunzip E (concat (body_chunks r)) = GzOk o →
  download_file E url p w = (Ok tt, w1) →
  extract_gzip E p w1 = (Ok tt, w2) →
  OS.stat (fs w2) p = Raise FileNotFoundError ∧
  OS.stat (fs w2) out = Ok (IFile o) ∧
  fs w2 !! p = None.
Proof.
  intros Hsuf Hout Hget Hgz Hdl Hex.
  destruct (PathFacts.with_suffix_sibling p Hsuf) as (stem & Hw & Hstem & Hp).
  rewrite Hout in Hw. injection Hw as ->.
  pose proof (suffix_not_root p Hsuf) as Hroot.
  apply download_file_Ok_inv in Hdl as (r' & Hget' & _ & _ & Hdir & _ & Hfs1).
  rewrite Hget in Hget'. injection Hget' as <-.
  rewrite (parent_not_root p Hroot) in Hdir.
  set (dir := removelast p) in *. set (n := PurePath.name p) in *.
  assert (OS.stat (fs w1) p = Ok (IFile (concat (body_chunks r)))) as Hstat1.
  { rewrite Hfs1, Hp. rewrite stat_child.
    - by rewrite lookup_insert_eq.
    - by rewrite stat_dir_insert_child.
    - by rewrite <- Hp. }
  destruct (extract_gzip_cases E p (dir ++ [stem]) _ w1 Hsuf Hout Hstat1)
    as (r0 & w' & Hrun & Hcases).
  rewrite Hex in Hrun. injection Hrun as <- <-.
  destruct Hcases as [(e & ? & _)|(Hno & [(? & e & _ & ? & _)|[(? & e & _ & _ & ? & _)|Hok]])];
    try discriminate.
  destruct Hok as (o' & Hgz' & _ & _ & Hfs2 & _).
  rewrite Hgz in Hgz'. injection Hgz' as <-.
  assert (OS.is_root (dir ++ [stem]) = false) as Hroot'.
  { unfold OS.node_at in Hno. by destruct (OS.is_root (dir ++ [stem])). }
  assert (OS.stat (fs w2) dir = Ok IDir) as Hdir2.
  { rewrite Hfs2, Hfs1. rewrite Hp at 1.
    by rewrite stat_dir_delete_child, stat_dir_insert_child, Hp, stat_dir_insert_child. }
  assert (dir ++ [stem] ≠ p) as Hne.
  { rewrite Hp. intros Heq. by apply app_inv_head in Heq as [= ->]. }
  split_and!.
  - rewrite Hp at 1. rewrite stat_child; [|done|by rewrite <- Hp].
    rewrite Hfs2. by rewrite <- Hp, lookup_delete_eq.
  - rewrite stat_child; [|done|done].
    by rewrite Hfs2, lookup_delete_ne, lookup_insert_eq.
  - by rewrite Hfs2, lookup_delete_eq.
Qed.

(** * The properties of the specification *)

(** The four file names: what [with_suffix('')] makes of the archive path is
    the path [run_pipeline] tests. *)
Lemma with_suffix_gz_path filename :
  In filename FILES_TO_DOWNLOAD →
  PurePath.with_suffix_empty (gz_path filename) = Some (tsv_path filename) ∧
  PurePath.suffix (gz_path filename) ≠ "".
Proof.
  intros Hin. simpl in Hin.
  destruct Hin as [<-|[<-|[<-|[<-|[]]]]]; by vm_compute.
Qed.

(** C8 -- for each of the four fixed file names, the extracted path the
    orchestrator computes (every [".gz"] replaced by nothing, joined to the
    output directory) is the output path the extractor computes (the archive
    path with its last suffix stripped): the file the idempotency check tests
    is the file the extractor writes. *)
Theorem extracted_path_agrees :
  Forall (λ filename,
            PurePath.with_suffix_empty (OUTPUT_DIR /: filename)
            = Some (OUTPUT_DIR /: Str.replace filename ".gz" ""))
         FILES_TO_DOWNLOAD.
Proof. repeat constructor. Qed.

(** C9 -- a fetch whose response carries a client or server error status
    raises before the destination is opened: the file system is exactly what
    it was, and the only actions are the request and the two log records. *)
Theorem failed_status_leaves_fs_unchanged E url dest r w :
  requests_get E url = Connected r →
  (400 ≤ status_code r < 600)%Z →
  ∃ w', download_file E url dest w = (Raise (HTTPError (status_code r)), w') ∧
        fs w' = fs w ∧
        new_events w w' =
          [EvLog INFO (Starting_download url); EvGet url;
           EvLog ERROR (Network_error url (HTTPError (status_code r)))].
Proof.
  intros Hget Hst. eexists. split; [by apply download_file_error_status|].
  split; [done|]. by apply new_events_app.
Qed.

Lemma failed_status_leaves_fs_unchanged_witness :
  ∃ w', download_file Sample.E_404 (file_url "title.ratings.tsv.gz")
          (gz_path "title.ratings.tsv.gz") Sample.empty_world
        = (Raise (HTTPError 404), w') ∧
        fs w' = fs Sample.empty_world ∧
        new_events Sample.empty_world w' =
          [EvLog INFO (Starting_download (file_url "title.ratings.tsv.gz"));
           EvGet (file_url "title.ratings.tsv.gz");
           EvLog ERROR (Network_error (file_url "title.ratings.tsv.gz") (HTTPError 404))].
Proof.
  apply (failed_status_leaves_fs_unchanged Sample.E_404 _ _
           (Response 404 [Sample.garbage] None)).
  - reflexivity.
  - simpl. lia.
Defined.

(** C3 -- for each of the four resources: when the source answers with a
    stream the codec accepts, and fetch and extract both complete, the
    archive is gone and the extracted file holds the decompressed bytes of
    what was downloaded. *)
Theorem successful_round_trip E filename r out w w1 w2 :
  In filename FILES_TO_DOWNLOAD →
  requests_get E (file_url filename) = Connected r →
  gunzip E (concat (body_chunks r)) = GzOk out →
  download_file E (file_url filename) (gz_path filename) w = (Ok tt, w1) →
  extract_gzip E (gz_path filename) w1 = (Ok tt, w2) →
  OS.stat (fs w2) (gz_path filename) = Raise FileNotFoundError ∧
  OS.stat (fs w2) (tsv_path filename) = Ok (IFile out).
Proof.
  intros Hin Hget Hgz Hdl Hex.
  destruct (with_suffix_gz_path filename Hin) as [Hout Hsuf].
  destruct (fetch_extract_round_trip _ _ _ _ _ _ _ _ _ Hsuf Hout Hget Hgz Hdl Hex)
    as (? & ? & _).
  by split.
Qed.

Lemma successful_round_trip_witness :
  OS.stat (fs (extract_gzip Sample.E_ok (gz_path "title.crew.tsv.gz")
                 (download_file Sample.E_ok (file_url "title.crew.tsv.gz")
                    (gz_path "title.crew.tsv.gz") Sample.ready_world).2).2)
    (gz_path "title.crew.tsv.gz") = Raise FileNotFoundError ∧
  OS.stat (fs (extract_gzip Sample.E_ok (gz_path "title.crew.tsv.gz")
                 (download_file Sample.E_ok (file_url "title.crew.tsv.gz")
                    (gz_path "title.crew.tsv.gz") Sample.ready_world).2).2)
    (tsv_path "title.crew.tsv.gz") = Ok (IFile Sample.payload).
Proof.
  apply (successful_round_trip Sample.E_ok "title.crew.tsv.gz"
           (Response 200 [[x1f; x8b]; Sample.payload] None) Sample.payload
           Sample.ready_world
           (download_file Sample.E_ok (file_url "title.crew.tsv.gz")
              (gz_path "title.crew.tsv.gz") Sample.ready_world).2).
  - simpl. do 3 right. by left.
  - reflexivity.
  - reflexivity.
  - vm_compute. reflexivity.
  - vm_compute. reflexivity.
Defined.

(** ** The loop body *)

Lemma trace_extends {A} (m : IO A) w r w' :
  confined anywhere anywhere m → m w = (r, w') → ∃ t, trace w' = trace w ++ t.
Proof. intros Hm Hrun. destruct (Hm w r w' Hrun) as (_ & t & Ht & _). eauto. Qed.

(** The fetcher always starts with its log record and the request. *)
Lemma download_file_begins E url dest w r w' :
  download_file E url dest w = (r, w') →
  ∃ t, trace w' = trace w ++ EvLog INFO (Starting_download url) :: EvGet url :: t.
Proof.
  set (w0 := logged (EvGet url) (logged (EvLog INFO (Starting_download url)) w)).
  set (rest := λ response : response,
         raise_for_status response ;;
         OS.open_wb dest ;;
         iter_content response (λ chunk, OS.write dest chunk) ;;
         logger_info (Download_complete (PurePath.name dest))).
  set (h := λ e, logger_error (Network_error url e) ;; (raise e : IO unit)).
  assert (download_file E url dest w =
          try_except
            (match requests_get E url with
             | ConnFail e => raise e
             | Connected r => mret r
             end ≫= rest) is_RequestException h w0) as -> by reflexivity.
  intros Hrun. eapply trace_extends in Hrun as [t Ht].
  - exists t. rewrite Ht. unfold w0, logged. simpl. by rewrite <- !app_assoc.
  - apply confined_try.
    + apply confined_bind.
      { destruct (requests_get E url); [apply confined_raise|apply confined_ret]. }
      intros resp. unfold rest, logger_info.
      apply confined_bind.
      { unfold raise_for_status. case_bool_decide; [apply confined_raise|apply confined_ret]. }
      intros _. apply confined_bind; [by apply confined_open_wb|]. intros _.
      apply confined_bind; [|intros _; apply confined_log].
      unfold iter_content. apply confined_bind.
      * apply confined_for_each. intros c _. by apply confined_write.
      * intros _. destruct (body_abort resp); [apply confined_raise|apply confined_ret].
    + intros e. unfold h, logger_error.
      apply confined_bind; [apply confined_log|]. intros _. apply confined_raise.
Qed.

Lemma pipeline_body_skip E filename w n :
  OS.stat (fs w) (tsv_path filename) = Ok n →
  pipeline_body E filename w = (Ok tt, logged (EvLog INFO (Skipping filename)) w).
Proof.
  intros H. unfold pipeline_body, OS.path_exists. io_unfold. by rewrite H.
Qed.

Lemma pipeline_body_attempt E filename w e :
  OS.stat (fs w) (tsv_path filename) = Raise e →
  pipeline_body E filename w = fetch_then_extract E filename w.
Proof.
  intros H. unfold pipeline_body, OS.path_exists. io_unfold. by rewrite H.
Qed.

(** Whatever fetch and extract do, the guarded block returns normally. *)
Lemma fetch_then_extract_Ok E filename w :
  ∃ w', fetch_then_extract E filename w = (Ok tt, w').
Proof.
  unfold fetch_then_extract, try_except.
  destruct ((download_file _ _ _ ;; extract_gzip _ _) w) as [[[]|e] w1]; [by eexists|].
  rewrite is_Exception_all. by eexists.
Qed.

Lemma fetch_then_extract_begins E filename w r w' :
  fetch_then_extract E filename w = (r, w') →
  ∃ t, trace w' = trace w ++
         EvLog INFO (Starting_download (file_url filename)) :: EvGet (file_url filename) :: t.
Proof.
  unfold fetch_then_extract, try_except.
  destruct ((download_file _ _ _ ;; extract_gzip _ _) w) as [r1 w1] eqn:Hrun.
  assert (∃ t, trace w1 = trace w ++
            EvLog INFO (Starting_download (file_url filename)) :: EvGet (file_url filename) :: t)
    as [t1 Ht1].
  { apply bind_inv in Hrun as [([] & w0 & Hdl & Hex)|(e & Hdl & ->)].
    - apply download_file_begins in Hdl as [t Ht].
      eapply trace_extends in Hex as [t' Ht']; [|by apply confined_extract_gzip].
      exists (t ++ t'). rewrite Ht', Ht, <- app_assoc. done.
    - by apply download_file_begins in Hdl. }
  destruct r1 as [[]|e].
  - intros [= <- <-]. eauto.
  - rewrite is_Exception_all. unfold logger_error, emit. intros [= <- <-]. simpl.
    eexists. rewrite Ht1, <- app_assoc. done.
Qed.

Lemma pipeline_body_Ok E filename w : ∃ w', pipeline_body E filename w = (Ok tt, w').
Proof.
  destruct (OS.stat (fs w) (tsv_path filename)) as [n|e] eqn:H.
  - rewrite (pipeline_body_skip _ _ _ _ H). by eexists.
  - rewrite (pipeline_body_attempt _ _ _ _ H). apply fetch_then_extract_Ok.
Qed.


(** ** The loop *)

Lemma visited_app_l filename t t' : visited filename t → visited filename (t ++ t').
Proof. unfold visited. rewrite !in_app_iff. tauto. Qed.

Lemma visited_app_r filename t t' : visited filename t' → visited filename (t ++ t').
Proof. unfold visited. rewrite !in_app_iff. tauto. Qed.

Lemma pipeline_body_visited E filename w r w' :
  pipeline_body E filename w = (r, w') →
  ∃ t, trace w' = trace w ++ t ∧ visited filename t.
Proof.
  destruct (OS.stat (fs w) (tsv_path filename)) as [n|e] eqn:H.
  - rewrite (pipeline_body_skip _ _ _ _ H). intros [= <- <-].
    eexists. split; [done|]. left. by left.
  - rewrite (pipeline_body_attempt _ _ _ _ H). intros Hrun.
    apply fetch_then_extract_begins in Hrun as [t Ht].
    eexists. split; [done|]. right. split; [by left|by right; left].
Qed.

Lemma pipeline_loop E files : ∀ w,
  ∃ w', for_each files (pipeline_body E) w = (Ok tt, w') ∧
        w' = fold_left (step E) files w ∧
        ∃ t, trace w' = trace w ++ t ∧ ∀ filename, In filename files → visited filename t.
Proof.
  induction files as [|f files IH]; intros w; simpl.
  - exists w. split; [done|]. split; [done|]. exists []. by rewrite app_nil_r.
  - destruct (pipeline_body_Ok E f w) as [w1 H1].
    destruct (IH w1) as (w' & Hrun & Hfold & t' & Ht' & Hvis).
    destruct (pipeline_body_visited _ _ _ _ _ H1) as (t1 & Ht1 & Hv1).
    exists w'. split; [by rewrite (bind_Ok _ _ _ _ _ H1)|].
    split; [unfold step at 2; by rewrite H1|].
    exists (t1 ++ t'). split; [by rewrite Ht', Ht1, <- app_assoc|].
    intros g [<-|Hg]; [by apply visited_app_l|by apply visited_app_r, Hvis].
Qed.


(** Resource #2 of 4 answers 404: the other three are fetched and
    extracted, and the run returns normally. *)
Example second_of_four_fails :
  let '(r, w') := run_pipeline Sample.E_404 Sample.empty_world in
  r = Ok tt ∧
  In (EvLog ERROR (Pipeline_failed "title.ratings.tsv.gz")) (trace w') ∧
  map (λ f, OS.stat (fs w') (tsv_path f)) FILES_TO_DOWNLOAD
  = [Ok (IFile Sample.payload); Raise FileNotFoundError;
     Ok (IFile Sample.payload); Ok (IFile Sample.payload)].
Proof. vm_compute. split; [done|]. split; [|done]. do 17 right. by left. Qed.

(** C5 -- a response with a client or server error status is a failure of
    the fetcher, a [RequestException], raised right after the request: no
    file is created or written, so no archive appears; the body of the loop
    returns normally with the file system as it was, and the loop over any
    list of resources returns normally. *)
Theorem error_status_is_fetch_error E filename r w :
  requests_get E (file_url filename) = Connected r →
  (400 ≤ status_code r < 600)%Z →
  (∃ e w', download_file E (file_url filename) (gz_path filename) w = (Raise e, w') ∧
           is_RequestException e = true ∧
           fs w' = fs w ∧
           (∀ p, ¬ In (EvCreate p) (new_events w w') ∧ ¬ In (EvWrite p) (new_events w w'))) ∧
  (∃ w', pipeline_body E filename w = (Ok tt, w') ∧ fs w' = fs w) ∧
  (∀ files w0, ∃ w', for_each files (pipeline_body E) w0 = (Ok tt, w')).
Proof.
  intros Hget Hst.
  pose proof (download_file_error_status E _ (gz_path filename) r w Hget Hst) as Hdl.
  split; [|split].
  - do 2 eexists. split; [exact Hdl|]. split; [done|]. split; [done|].
    intros p. erewrite new_events_app by done. simpl. intuition discriminate.
  - destruct (OS.stat (fs w) (tsv_path filename)) as [n|e] eqn:H.
    + rewrite (pipeline_body_skip _ _ _ _ H). by eexists.
    + rewrite (pipeline_body_attempt _ _ _ _ H).
      unfold fetch_then_extract, try_except.
      rewrite (bind_Raise _ _ _ _ _ Hdl). simpl. by eexists.
  - intros files w0. destruct (pipeline_loop E files w0) as (w' & Hrun & _). eauto.
Qed.

Lemma error_status_is_fetch_error_witness :
  (∃ e w', download_file Sample.E_404 (file_url "title.ratings.tsv.gz")
             (gz_path "title.ratings.tsv.gz") Sample.empty_world = (Raise e, w') ∧
           is_RequestException e = true ∧
           fs w' = fs Sample.empty_world ∧
           (∀ p, ¬ In (EvCreate p) (new_events Sample.empty_world w') ∧
                 ¬ In (EvWrite p) (new_events Sample.empty_world w'))) ∧
  (∃ w', pipeline_body Sample.E_404 "title.ratings.tsv.gz" Sample.empty_world = (Ok tt, w') ∧
         fs w' = fs Sample.empty_world) ∧
  (∀ files w0, ∃ w', for_each files (pipeline_body Sample.E_404) w0 = (Ok tt, w')).
Proof.
  apply (error_status_is_fetch_error Sample.E_404 "title.ratings.tsv.gz"
           (Response 404 [Sample.garbage] None)).
  - reflexivity.
  - simpl. lia.
Defined.

(** C4 -- an archive path is a path whose name carries a suffix, the one
    [with_suffix('')] strips.  When the archive's content is not a valid
    compressed stream, [extract_gzip] raises and the archive is still there
    with its content, never unlinked.  In general the archive is unlinked
    only once the stream has been decompressed to its end and written to the
    output. *)
Theorem corrupt_archive_is_kept E p data written e0 w :
  PurePath.suffix p ≠ "" →
  OS.stat (fs w) p = Ok (IFile data) →
  gunzip E data = GzFail written e0 →
  (∃ e w', extract_gzip E p w = (Raise e, w') ∧
           OS.stat (fs w') p = Ok (IFile data) ∧
           ¬ In (EvUnlink p) (new_events w w')) ∧
  (∀ data0 w0 r w0',
     OS.stat (fs w0) p = Ok (IFile data0) →
     extract_gzip E p w0 = (r, w0') →
     In (EvUnlink p) (new_events w0 w0') →
     ∃ o out, gunzip E data0 = GzOk o ∧
              PurePath.with_suffix_empty p = Some out ∧
              fs w0' !! out = Some (IFile o)).
Proof.
  intros Hsuf Hstat Hgz.
  destruct (PathFacts.with_suffix_sibling p Hsuf) as (stem & Hout & _ & _).
  destruct (PathFacts.with_suffix_facts p _ Hsuf Hout) as (Hne & Hlen & _ & _).
  split.
  - destruct (extract_gzip_cases E p _ data w Hsuf Hout Hstat) as (r & w' & Hrun & Hcases).
    destruct Hcases as [(e & -> & _ & Hfs & Htr)|(Hno & [(wr & e & _ & -> & Hfs & Htr)|
      [(o & e & Hgz' & _)|(o & Hgz' & _)]])]; try congruence.
    + exists e, w'. split; [done|]. rewrite Hfs. split; [done|].
      rewrite (new_events_app _ _ _ Htr). simpl. intuition discriminate.
    + exists e, w'. split; [done|]. rewrite Hfs. split.
      * rewrite OSFacts.stat_insert_ne; [done|]. by apply OSFacts.sibling_not_prefix.
      * rewrite (new_events_app _ _ _ Htr). simpl. intuition discriminate.
  - intros data0 w0 r w0' Hstat0 Hrun0 Hin.
    destruct (extract_gzip_cases E p _ data0 w0 Hsuf Hout Hstat0) as (r' & w' & Hrun & Hcases).
    rewrite Hrun0 in Hrun. injection Hrun as <- <-.
    destruct Hcases as [(e & -> & _ & Hfs & Htr)|(Hno & [(wr & e & _ & -> & Hfs & Htr)|
      [(o & e & _ & _ & _ & _ & Htr)|(o & Hgz' & _ & _ & Hfs & _)]])];
      try (rewrite (new_events_app _ _ _ Htr) in Hin; simpl in Hin;
           exfalso; intuition discriminate).
    exists o. eexists. split; [done|]. split; [done|].
    by rewrite Hfs, lookup_delete_ne, lookup_insert_eq.
Qed.

Lemma corrupt_archive_is_kept_witness :
  (∃ e w', extract_gzip Sample.E_ok (gz_path "title.basics.tsv.gz") Sample.corrupt_world
           = (Raise e, w') ∧
           OS.stat (fs w') (gz_path "title.basics.tsv.gz") = Ok (IFile Sample.garbage) ∧
           ¬ In (EvUnlink (gz_path "title.basics.tsv.gz"))
               (new_events Sample.corrupt_world w')) ∧
  (∀ data0 w0 r w0',
     OS.stat (fs w0) (gz_path "title.basics.tsv.gz") = Ok (IFile data0) →
     extract_gzip Sample.E_ok (gz_path "title.basics.tsv.gz") w0 = (r, w0') →
     In (EvUnlink (gz_path "title.basics.tsv.gz")) (new_events w0 w0') →
     ∃ o out, gunzip Sample.E_ok data0 = GzOk o ∧
              PurePath.with_suffix_empty (gz_path "title.basics.tsv.gz") = Some out ∧
              fs w0' !! out = Some (IFile o)).
Proof.
  apply (corrupt_archive_is_kept Sample.E_ok (gz_path "title.basics.tsv.gz")
           Sample.garbage [] BadGzipFile Sample.corrupt_world).
  - by vm_compute.
  - by vm_compute.
  - reflexivity.
Defined.

(** Outside the extractor's domain: on a path whose name has no suffix the
    output path is the archive path itself, so opening the output truncates
    the archive before it is read; with a codec that, like gzip, reads an
    empty file as an empty stream, the corrupt content is lost, no failure is
    raised and the file is removed. *)
Example extract_gzip_without_suffix :
  let w := World {[ ["blob"] := IFile Sample.garbage ]} [] in
  let '(r, w') := extract_gzip Sample.E_ok ["blob"] w in
  r = Ok tt ∧ fs w' = ∅.
Proof. by vm_compute. Qed.

(** ** Directory creation *)

Section builds.











End builds.


Lemma try_except_ext {A} (m : IO A) handles h1 h2 w :
  (∀ e w', m w = (Raise e, w') → h1 e w' = h2 e w') →
  try_except m handles h1 w = try_except m handles h2 w.
Proof.
  intros H. unfold try_except. destruct (m w) as [[a|e] w'] eqn:Hm; [done|].
  destruct (handles e); [|done]. by apply H.
Qed.

Lemma stat_parent_snoc m dir c :
  OS.stat m dir = Ok IDir → OS.stat m (PurePath.parent (dir ++ [c])) = Ok IDir.
Proof.
  intros Hdir. unfold PurePath.parent. case_bool_decide as Hr.
  - destruct Hr as [Hr|Hr]; [by destruct dir|]. by rewrite Hr.
  - by rewrite removelast_last.
Qed.

(** Below a directory that resolves, [parents=True] makes no difference. *)
Lemma mkdir_parents_rev_resolved c rp w :
  OS.stat (fs w) (rev rp) = Ok IDir →
  Pathlib.mkdir_parents_rev (c :: rp) w = Pathlib.mkdir_exist_ok (rev rp ++ [c]) w.
Proof.
  intros Hdir. simpl. unfold Pathlib.mkdir_exist_ok. apply try_except_ext.
  intros e w'. unfold OS.mkdir. rewrite (stat_parent_snoc _ _ _ Hdir).
  destruct (OS.node_at (fs w) (rev rp ++ [c])); intros [= <- <-].
  case_bool_decide; [discriminate|reflexivity].
Qed.



Lemma stat_snoc_Ok m dir c n :
  OS.stat m (dir ++ [c]) = Ok n → OS.stat m dir = Ok IDir.
Proof.
  rewrite OSFacts.stat_snoc. by destruct (OS.stat m dir) as [[?|]|?].
Qed.

(** Every ancestor of a path that resolves is a directory. *)
Lemma stat_prefix_dir m q : ∀ r n,
  OS.stat m (q ++ r) = Ok n → r ≠ [] → OS.stat m q = Ok IDir.
Proof.
  intros r. induction r as [|c r IH] using rev_ind; intros n H Hr; [done|].
  rewrite app_assoc in H. apply stat_snoc_Ok in H.
  destruct r as [|c' r']; [by rewrite app_nil_r in H|]. by eapply IH.
Qed.

(** An existing directory: [mkdir(parents=True, exist_ok=True)] returns
    normally and changes nothing. *)
Lemma mkdir_parents_rev_noop rp w :
  OS.stat (fs w) (rev rp) = Ok IDir →
  Pathlib.mkdir_parents_rev rp w = (Ok tt, w).
Proof.
  destruct rp as [|c rp]; [done|]. intros Hstat.
  assert (rev (c :: rp) = rev rp ++ [c]) as Hrev by done. rewrite Hrev in Hstat.
  pose proof (stat_snoc_Ok _ _ _ _ Hstat) as Hdir.
  rewrite (mkdir_parents_rev_resolved _ _ _ Hdir).
  unfold Pathlib.mkdir_exist_ok, try_except, OS.mkdir.
  rewrite (stat_parent_snoc _ _ _ Hdir), (OSFacts.stat_Ok_node _ _ _ Hstat). simpl.
  unfold OS.is_dir. io_unfold. by rewrite Hstat.
Qed.

Lemma confined_mono {A} (U U' : string → Prop) (K K' : Path → Prop) (m : IO A) :
  (∀ u, U u → U' u) → (∀ k, K k → K' k) → confined U K m → confined U' K' m.
Proof.
  intros HU HK Hm w r w' Hrun. destruct (Hm w r w' Hrun) as (Hfs & t & Ht & HF).
  split; [intros k Hk; apply Hfs; naive_solver|].
  exists t. split; [done|]. eapply Forall_impl; [done|].
  intros [] ?; simpl in *; auto.
Qed.

(** Directory creation touches the path and its ancestors only, and sends
    no request. *)
Lemma confined_mkdir_parents_rev rp :
  confined nowhere (λ k, k `prefix_of` rev rp) (Pathlib.mkdir_parents_rev rp).
Proof.
  assert (∀ p e, confined nowhere (λ k, k `prefix_of` p)
            (d ← OS.is_dir p; if d : bool then mret tt else raise e)) as Hh.
  { intros p e. apply confined_bind; [apply confined_is_dir|].
    intros []; [apply confined_ret|apply confined_raise]. }
  induction rp as [|c rp IH]; simpl.
  - apply confined_try; [by apply confined_mkdir|]. intros e.
    case_bool_decide; [apply confined_raise|apply Hh].
  - apply confined_try; [by apply confined_mkdir|]. intros e.
    case_bool_decide; [|apply Hh].
    case_bool_decide; [apply confined_raise|].
    apply confined_bind.
    + eapply confined_mono; [done| |exact IH]. intros k Hk. simpl.
      etrans; [done|]. by apply prefix_app_r.
    + intros _. unfold Pathlib.mkdir_exist_ok.
      apply confined_try; [by apply confined_mkdir|]. intros e'.
      case_bool_decide; [apply confined_raise|apply Hh].
Qed.

(** ** The four resources do not interfere *)

Lemma confined_pipeline_body E filename :
  In filename FILES_TO_DOWNLOAD →
  confined (λ u, u = file_url filename) (own filename) (pipeline_body E filename).
Proof.
  intros Hin. destruct (with_suffix_gz_path _ Hin) as [Hout _].
  unfold pipeline_body, logger_info, logger_error.
  apply confined_bind; [apply confined_path_exists|]. intros [].
  - apply confined_log.
  - apply confined_try; [|intros _; apply confined_log].
    apply confined_bind.
    + apply confined_download_file; [done|by left].
    + intros _. apply confined_extract_gzip; [by left|].
      intros out. rewrite Hout. intros [= <-]. by right.
Qed.

Lemma files_apart f g :
  In f FILES_TO_DOWNLOAD → In g FILES_TO_DOWNLOAD → f ≠ g →
  file_url g ≠ file_url f ∧
  ∀ k, own g k → k ≠ gz_path f ∧ k ≠ tsv_path f ∧
                 ¬ k `prefix_of` gz_path f ∧ ¬ k `prefix_of` tsv_path f.
Proof.
  intros Hf Hg Hne. simpl in Hf, Hg.
  destruct Hf as [<-|[<-|[<-|[<-|[]]]]]; destruct Hg as [<-|[<-|[<-|[<-|[]]]]];
    try done.
  all: split; [by vm_compute|].
  all: intros k [-> | ->]; split_and!; try (by vm_compute).
  all: apply OSFacts.sibling_not_prefix; by vm_compute.
Qed.

Lemma own_not_output_dir f k :
  In f FILES_TO_DOWNLOAD → own f k → ¬ k `prefix_of` OUTPUT_DIR.
Proof.
  intros Hf Hk. apply OSFacts.longer_not_prefix. simpl in Hf.
  destruct Hf as [<-|[<-|[<-|[<-|[]]]]]; destruct Hk as [-> | ->]; vm_compute; lia.
Qed.

Lemma output_dir_prefix f k :
  In f FILES_TO_DOWNLOAD → own f k → ∃ r, k = OUTPUT_DIR ++ r ∧ r ≠ [].
Proof.
  intros Hf Hk. simpl in Hf.
  destruct Hf as [<-|[<-|[<-|[<-|[]]]]]; destruct Hk as [-> | ->];
    by eexists [_].
Qed.

Lemma untouched_app f t t' : untouched f t → untouched f t' → untouched f (t ++ t').
Proof. apply Forall_app_2. Qed.

Lemma untouched_not_in f t :
  untouched f t →
  ¬ In (EvGet (file_url f)) t ∧
  ¬ In (EvUnlink (gz_path f)) t ∧
  ¬ In (EvCreate (gz_path f)) t ∧ ¬ In (EvCreate (tsv_path f)) t ∧
  ¬ In (EvWrite (gz_path f)) t ∧ ¬ In (EvWrite (tsv_path f)) t.
Proof.
  unfold untouched. rewrite Forall_forall. intros H.
  split_and!; intros Hin; apply list_elem_of_In, H in Hin; simpl in Hin;
    apply Hin; first [done | by left | by right].
Qed.

(** Processing another resource of the list leaves the two paths of [f] as
    they resolve, and as they are recorded. *)
Lemma other_resource_frame E f g w r w' :
  In f FILES_TO_DOWNLOAD → In g FILES_TO_DOWNLOAD → f ≠ g →
  pipeline_body E g w = (r, w') →
  (∀ k, own f k → fs w' !! k = fs w !! k ∧ OS.stat (fs w') k = OS.stat (fs w) k) ∧
  ∃ t, trace w' = trace w ++ t ∧ untouched f t.
Proof.
  intros Hf Hg Hne Hrun.
  destruct (files_apart f g Hf Hg Hne) as [Hurl Hpaths].
  destruct (confined_pipeline_body E g Hg w r w' Hrun) as (Hfs & t & Ht & HF).
  split.
  - intros k Hk. split.
    + apply Hfs. intros Hown. destruct (Hpaths _ Hown) as (? & ? & _).
      by destruct Hk as [-> | ->].
    + apply OSFacts.stat_ext. intros q Hq. unfold OS.node_at.
      destruct (OS.is_root q); [done|]. apply Hfs. intros Hown.
      destruct (Hpaths _ Hown) as (_ & _ & ? & ?). by destruct Hk as [-> | ->].
  - exists t. split; [done|]. eapply Forall_impl; [done|].
    intros [] Hev; simpl in *; try done.
    + by subst.
    + intros Hown. destruct (Hpaths _ Hev) as (? & ? & _). by destruct Hown as [-> | ->].
    + intros Hown. destruct (Hpaths _ Hev) as (? & ? & _). by destruct Hown as [-> | ->].
    + intros Hown. destruct (Hpaths _ Hev) as (? & ? & _). by destruct Hown as [-> | ->].
    + intros Hown. destruct (Hpaths _ Hev) as (? & ? & _). by destruct Hown as [-> | ->].
Qed.




(** ** Whole runs *)

(** A loop whose body keeps an invariant and only produces events of a
    kind. *)
Lemma for_each_invariant {A} (I : world → Prop) (G : list event → Prop)
    (xs : list A) (body : A → IO unit) :
  G [] → (∀ t t', G t → G t' → G (t ++ t')) →
  (∀ x w, In x xs → I w →
     ∃ w' t, body x w = (Ok tt, w') ∧ I w' ∧ trace w' = trace w ++ t ∧ G t) →
  ∀ w, I w →
    ∃ w' t, for_each xs body w = (Ok tt, w') ∧ I w' ∧ trace w' = trace w ++ t ∧ G t.
Proof.
  intros Hnil Happ. induction xs as [|x xs IH]; intros Hbody w HI; simpl.
  - exists w, []. by rewrite app_nil_r.
  - destruct (Hbody x w) as (w1 & t1 & H1 & HI1 & Ht1 & HG1); [by left|done|].
    destruct (IH (λ y w0 Hy, Hbody y w0 (or_intror Hy)) w1 HI1)
      as (w' & t' & Hrun & HI' & Ht' & HG').
    exists w', (t1 ++ t'). split; [by rewrite (bind_Ok _ _ _ _ _ H1)|].
    split; [done|]. split; [by rewrite Ht', Ht1, <- app_assoc|]. by apply Happ.
Qed.

Lemma settled_body E f g n a w :
  In f FILES_TO_DOWNLOAD → In g FILES_TO_DOWNLOAD → settled f n a w →
  ∃ w' t, pipeline_body E g w = (Ok tt, w') ∧ settled f n a w' ∧
          trace w' = trace w ++ t ∧ untouched f t.
Proof.
  intros Hf Hg [Htsv Hgz]. destruct (decide (f = g)) as [<-|Hne].
  - exists (logged (EvLog INFO (Skipping f)) w), [EvLog INFO (Skipping f)].
    split; [by eapply pipeline_body_skip|]. split; [done|]. split; [done|].
    by apply Forall_singleton.
  - destruct (pipeline_body_Ok E g w) as [w' Hrun].
    destruct (other_resource_frame E f g w _ w' Hf Hg Hne Hrun) as (Hframe & t & Ht & Hun).
    exists w', t. split; [done|]. split; [|done]. unfold settled.
    destruct (Hframe (tsv_path f)) as [_ ->]; [by right|].
    destruct (Hframe (gz_path f)) as [_ ->]; [by left|]. done.
Qed.

(** Idempotency of a run: a resource whose extracted path exists is skipped
    by the run, which sends no request to its location, does not act on its
    two paths, and leaves them as they resolve. *)
Lemma run_settled E f n a w :
  In f FILES_TO_DOWNLOAD → settled f n a w →
  ∃ w' t, run_pipeline E w = (Ok tt, w') ∧ settled f n a w' ∧
          trace w' = trace w ++ t ∧ untouched f t ∧
          In (EvLog INFO (Skipping f)) t.
Proof.
  intros Hf Hset.
  assert (Pathlib.mkdir_parents_exist_ok OUTPUT_DIR w = (Ok tt, w)) as Hmk.
  { apply mkdir_parents_rev_noop. rewrite rev_involutive.
    destruct (output_dir_prefix f (tsv_path f) Hf) as (r & Hr & Hne); [by right|].
    destruct Hset as [Htsv _]. rewrite Hr in Htsv. by eapply stat_prefix_dir. }
  destruct (for_each_invariant (settled f n a) (untouched f) FILES_TO_DOWNLOAD
              (pipeline_body E)) with (w := w) as (w' & t & Hrun & Hset' & Ht & Hun);
    [by apply Forall_nil|apply untouched_app| |done|].
  { intros g w0 Hg Hw0. by apply settled_body. }
  exists w', t. split.
  { unfold run_pipeline, run_pipeline_over. by rewrite (bind_Ok _ _ _ _ _ Hmk). }
  split_and!; try done.
  destruct (pipeline_loop E FILES_TO_DOWNLOAD w) as (w'' & Hrun' & _ & t' & Ht' & Hvis).
  rewrite Hrun in Hrun'. injection Hrun' as <-.
  rewrite Ht in Ht'. apply app_inv_head in Ht' as <-.
  destruct (Hvis f Hf) as [?|[_ Hget]]; [done|].
  by apply untouched_not_in in Hun as (Hno & _).
Qed.

Lemma runs_settled f n a Es : ∀ w,
  In f FILES_TO_DOWNLOAD → settled f n a w → settled f n a (runs Es w).
Proof.
  induction Es as [|E Es IH]; intros w Hf Hset; [done|]. simpl.
  destruct (run_settled E f n a w Hf Hset) as (w' & t & Hrun & Hset' & _).
  rewrite Hrun. by apply IH.
Qed.

(** The extractor when the system refuses to unlink the archive. *)
Lemma extract_gzip_unlink_refused E p out data o e w :
  PurePath.suffix p ≠ "" →
  PurePath.with_suffix_empty p = Some out →
  OS.stat (fs w) p = Ok (IFile data) →
  gunzip E data = GzOk o →
  OS.node_at (fs w) out ≠ Some IDir →
  unlink_fault E p = Some e →
  ∃ w1, extract_gzip E p w = (Raise e, w1) ∧
        OS.stat (fs w1) p = Ok (IFile data) ∧
        OS.stat (fs w1) out = Ok (IFile o) ∧
        ¬ In (EvUnlink p) (new_events w w1).
Proof.
  intros Hsuf Hout Hstat Hgz Hno Hul.
  destruct (PathFacts.with_suffix_sibling p Hsuf) as (stem & Hw & _ & Hp).
  rewrite Hout in Hw. injection Hw as ->.
  destruct (PathFacts.with_suffix_facts p _ Hsuf Hout) as (Hne & Hlen & _ & _).
  destruct (extract_gzip_cases E p _ data w Hsuf Hout Hstat) as (r & w1 & Hrun & Hcases).
  destruct Hcases as [(? & _ & ? & _)|(_ & [(? & ? & ? & _)|[Hc|(? & _ & ? & _)]])];
    try congruence.
  destruct Hc as (o' & e' & Hgz' & Hul' & -> & Hfs & Htr).
  rewrite Hgz in Hgz'. injection Hgz' as <-. rewrite Hul in Hul'. injection Hul' as <-.
  exists w1. split; [done|]. rewrite Hfs. split_and!.
  - rewrite OSFacts.stat_insert_ne; [done|]. by apply OSFacts.sibling_not_prefix.
  - assert (OS.is_root (removelast p ++ [stem]) = false) as Hroot.
    { unfold OS.node_at in Hno. by destruct (OS.is_root (removelast p ++ [stem])). }
    rewrite stat_child; [by rewrite lookup_insert_eq| |done].
    rewrite stat_dir_insert_child. rewrite Hp in Hstat. by eapply stat_snoc_Ok.
  - rewrite (new_events_app _ _ _ Htr). simpl. intuition discriminate.
Qed.

(** C10 -- when decompression and the write of the extracted file succeed
    but the system refuses to remove the archive, [extract_gzip] raises and
    leaves the complete extracted file next to the archive.  From then on,
    whatever the environments of the later runs, each run skips the
    resource: it sends no request for it, never unlinks the archive, and
    both files are still there afterwards. *)
Theorem leftover_archive_is_never_removed E f data o e w :
  In f FILES_TO_DOWNLOAD →
  OS.stat (fs w) (gz_path f) = Ok (IFile data) →
  gunzip E data = GzOk o →
  OS.node_at (fs w) (tsv_path f) ≠ Some IDir →
  unlink_fault E (gz_path f) = Some e →
  ∃ w1, extract_gzip E (gz_path f) w = (Raise e, w1) ∧
        OS.stat (fs w1) (gz_path f) = Ok (IFile data) ∧
        OS.stat (fs w1) (tsv_path f) = Ok (IFile o) ∧
        ∀ Es E',
          ∃ w3, run_pipeline E' (runs Es w1) = (Ok tt, w3) ∧
                In (EvLog INFO (Skipping f)) (new_events (runs Es w1) w3) ∧
                ¬ In (EvGet (file_url f)) (new_events (runs Es w1) w3) ∧
                ¬ In (EvUnlink (gz_path f)) (new_events (runs Es w1) w3) ∧
                OS.stat (fs w3) (gz_path f) = Ok (IFile data) ∧
                OS.stat (fs w3) (tsv_path f) = Ok (IFile o).
Proof.
  intros Hf Hstat Hgz Hno Hul.
  destruct (with_suffix_gz_path f Hf) as [Hout Hsuf].
  destruct (extract_gzip_unlink_refused E _ _ data o e w Hsuf Hout Hstat Hgz Hno Hul)
    as (w1 & Hrun & Hgz1 & Htsv1 & _).
  exists w1. split_and!; try done.
  intros Es E'.
  assert (settled f (IFile o) (Ok (IFile data)) (runs Es w1)) as Hset
    by by apply runs_settled.
  destruct (run_settled E' f _ _ _ Hf Hset) as (w3 & t & Hrun3 & [Htsv3 Hgz3] & Ht & Hun & Hskip).
  exists w3. rewrite (new_events_app _ _ _ Ht).
  apply untouched_not_in in Hun as (? & ? & _). by split_and!.
Qed.

Lemma leftover_archive_is_never_removed_witness :
  ∃ w1, extract_gzip Sample.E_locked (gz_path "title.basics.tsv.gz") Sample.archived_world
        = (Raise PermissionError, w1) ∧
        OS.stat (fs w1) (gz_path "title.basics.tsv.gz") = Ok (IFile Sample.archive) ∧
        OS.stat (fs w1) (tsv_path "title.basics.tsv.gz") = Ok (IFile Sample.payload) ∧
        ∀ Es E',
          ∃ w3, run_pipeline E' (runs Es w1) = (Ok tt, w3) ∧
                In (EvLog INFO (Skipping "title.basics.tsv.gz")) (new_events (runs Es w1) w3) ∧
                ¬ In (EvGet (file_url "title.basics.tsv.gz")) (new_events (runs Es w1) w3) ∧
                ¬ In (EvUnlink (gz_path "title.basics.tsv.gz")) (new_events (runs Es w1) w3) ∧
                OS.stat (fs w3) (gz_path "title.basics.tsv.gz") = Ok (IFile Sample.archive) ∧
                OS.stat (fs w3) (tsv_path "title.basics.tsv.gz") = Ok (IFile Sample.payload).
Proof.
  apply (leftover_archive_is_never_removed Sample.E_locked "title.basics.tsv.gz"
           Sample.archive Sample.payload PermissionError Sample.archived_world).
  - simpl. by left.
  - by vm_compute.
  - reflexivity.
  - by vm_compute.
  - reflexivity.
Defined.

(** The leftover in action: a run in which the archive cannot be removed,
    then a run with a healthy environment; the first resource is skipped and
    its archive is still on disk. *)
Example leftover_after_two_runs :
  let w2 := runs [Sample.E_locked; Sample.E_ok] Sample.ready_world in
  OS.stat (fs w2) (gz_path "title.basics.tsv.gz") = Ok (IFile Sample.archive) ∧
  OS.stat (fs w2) (tsv_path "title.basics.tsv.gz") = Ok (IFile Sample.payload).
Proof. by vm_compute. Qed.

(** ** At most one of archive and extracted file *)

(** What a completed extraction has done. *)
Lemma extract_gzip_Ok_inv E p out w w' :
  PurePath.suffix p ≠ "" →
  PurePath.with_suffix_empty p = Some out →
  extract_gzip E p w = (Ok tt, w') →
  ∃ data o, OS.stat (fs w) p = Ok (IFile data) ∧
            gunzip E data = GzOk o ∧
            fs w' = delete p (<[out := IFile o]> (fs w)).
Proof.
  intros Hsuf Hout Hrun.
  destruct (OS.stat (fs w) p) as [[data|]|e] eqn:Hstat.
  - destruct (extract_gzip_cases E p out data w Hsuf Hout Hstat) as (r & w1 & Hrun1 & Hcases).
    rewrite Hrun in Hrun1. injection Hrun1 as <- <-.
    destruct Hcases as [(? & ? & _)|(_ & [(? & ? & _ & ? & _)|[(? & ? & _ & _ & ? & _)|Hok]])];
      try discriminate.
    destruct Hok as (o & Hgz & _ & _ & Hfs & _). eauto.
  - exfalso. revert Hrun. unfold extract_gzip, with_suffix_empty, OS.open_rb.
    rewrite Hout. io_unfold. io_simpl. rewrite Hstat. io_simpl. done.
  - exfalso. revert Hrun. unfold extract_gzip, with_suffix_empty, OS.open_rb.
    rewrite Hout. io_unfold. io_simpl. rewrite Hstat. io_simpl.
    by rewrite is_Exception_all.
Qed.

(** The body of the loop, as far as the two files of [f] are concerned:
    they are both on disk afterwards only if they were before, unless the
    failure of [f] is logged. *)
Lemma both_on_disk_body E f g w r w' :
  In f FILES_TO_DOWNLOAD → In g FILES_TO_DOWNLOAD →
  pipeline_body E g w = (r, w') →
  ∃ t, trace w' = trace w ++ t ∧
       ((both_on_disk w' f → both_on_disk w f) ∨
        In (EvLog ERROR (Pipeline_failed f)) t).
Proof.
  intros Hf Hg Hrun. destruct (decide (f = g)) as [<-|Hne].
  - destruct (OS.stat (fs w) (tsv_path f)) as [n|e] eqn:Hstat.
    + rewrite (pipeline_body_skip _ _ _ _ Hstat) in Hrun. injection Hrun as <- <-.
      eexists. split; [done|]. by left.
    + rewrite (pipeline_body_attempt _ _ _ _ Hstat) in Hrun.
      unfold fetch_then_extract, try_except in Hrun.
      destruct ((download_file _ _ _ ;; extract_gzip _ _) w) as [[[]|e'] w1] eqn:Hrun1.
      * injection Hrun as <- <-.
        destruct (trace_extends _ w _ w1 (λ w0 r0 w0' H,
                    confined_bind anywhere anywhere _ _
                      (confined_download_file _ _ E _ _ I I)
                      (λ _, confined_extract_gzip _ _ E _ I (λ _ _, I)) w0 r0 w0' H)
                    Hrun1) as [t Ht].
        exists t. split; [done|]. left. intros [[x Hgz] _]. exfalso.
        apply bind_inv in Hrun1 as [([] & w0 & _ & Hex)|(? & _ & [=])].
        destruct (with_suffix_gz_path f Hf) as [Hout Hsuf].
        apply (extract_gzip_Ok_inv _ _ _ _ _ Hsuf Hout) in Hex as (? & ? & _ & _ & Hfs).
        by rewrite Hfs, lookup_delete_eq in Hgz.
      * rewrite is_Exception_all in Hrun. unfold logger_error, emit in Hrun.
        injection Hrun as <- <-.
        destruct (trace_extends _ w _ w1 (λ w0 r0 w0' H,
                    confined_bind anywhere anywhere _ _
                      (confined_download_file _ _ E _ _ I I)
                      (λ _, confined_extract_gzip _ _ E _ I (λ _ _, I)) w0 r0 w0' H)
                    Hrun1) as [t Ht].
        exists (t ++ [EvLog ERROR (Pipeline_failed f)]). simpl.
        split; [by rewrite Ht, <- app_assoc|]. right. apply in_app_iff. right. by left.
  - destruct (other_resource_frame E f g w r w' Hf Hg Hne Hrun) as (Hframe & t & Ht & _).
    exists t. split; [done|]. left. unfold both_on_disk, on_disk.
    destruct (Hframe (gz_path f)) as [-> _]; [by left|].
    destruct (Hframe (tsv_path f)) as [-> _]; [by right|]. done.
Qed.

Lemma both_on_disk_loop E f files : ∀ w w',
  In f FILES_TO_DOWNLOAD → (∀ g, In g files → In g FILES_TO_DOWNLOAD) →
  for_each files (pipeline_body E) w = (Ok tt, w') →
  ∃ t, trace w' = trace w ++ t ∧
       ((both_on_disk w' f → both_on_disk w f) ∨
        In (EvLog ERROR (Pipeline_failed f)) t).
Proof.
  induction files as [|g files IH]; intros w w' Hf Hsub Hrun; simpl in Hrun.
  - injection Hrun as <-. exists []. rewrite app_nil_r. split; [done|]. by left.
  - apply bind_inv in Hrun as [([] & w1 & H1 & Hrest)|(? & _ & [=])].
    destruct (both_on_disk_body E f g w _ w1 Hf (Hsub g (or_introl eq_refl)) H1)
      as (t1 & Ht1 & Hc1).
    destruct (IH w1 w' Hf (λ x Hx, Hsub x (or_intror Hx)) Hrest) as (t2 & Ht2 & Hc2).
    exists (t1 ++ t2). split; [by rewrite Ht2, Ht1, <- app_assoc|].
    rewrite in_app_iff. tauto.
Qed.

(** C6, as stated, fails: the first resource has its extracted file and a
    stale archive before the run; the run logs no error, the resource is
    skipped, and both files persist. *)
Lemma stale_archive_survives_skip :
  let '(r, w') := run_pipeline Sample.E_ok Sample.stale_world in
  r = Ok tt ∧
  existsb is_error_record (trace w') = false ∧
  In (EvLog INFO (Skipping "title.basics.tsv.gz")) (trace w') ∧
  OS.stat (fs w') (gz_path "title.basics.tsv.gz") = Ok (IFile Sample.archive) ∧
  OS.stat (fs w') (tsv_path "title.basics.tsv.gz") = Ok (IFile Sample.payload).
Proof. vm_compute. split_and!; try done. by left. Qed.

(** C6, amended -- for each of the four resources and every run that
    returns without logging a failure for it: if its archive and its
    extracted file were not both on disk before the run, they are not both
    on disk after it.  Every extraction that completes has removed the
    archive and left the extracted file; a skipped resource leaves the file
    system as it was, a stale archive included. *)
Theorem at_most_one_persists E f w w' :
  In f FILES_TO_DOWNLOAD →
  ¬ both_on_disk w f →
  run_pipeline E w = (Ok tt, w') →
  ¬ In (EvLog ERROR (Pipeline_failed f)) (new_events w w') →
  ¬ both_on_disk w' f ∧
  (∀ w0 w1, extract_gzip E (gz_path f) w0 = (Ok tt, w1) →
            ¬ on_disk w1 (gz_path f) ∧ on_disk w1 (tsv_path f)) ∧
  (∀ w0 n, OS.stat (fs w0) (tsv_path f) = Ok n →
           ∃ w1, pipeline_body E f w0 = (Ok tt, w1) ∧ fs w1 = fs w0).
Proof.
  intros Hf Hpre Hrun Hok. destruct (with_suffix_gz_path f Hf) as [Hout Hsuf].
  split_and!.
  - unfold run_pipeline, run_pipeline_over in Hrun.
    apply bind_inv in Hrun as [([] & w0 & Hmk & Hloop)|(? & _ & [=])].
    destruct (confined_mkdir_parents_rev _ _ _ _ Hmk) as (Hfs0 & t0 & Ht0 & _).
    rewrite rev_involutive in Hfs0.
    destruct (both_on_disk_loop E f _ w0 w' Hf (λ g Hg, Hg) Hloop) as (t & Ht & Hc).
    rewrite Ht0, <- app_assoc in Ht. rewrite (new_events_app _ _ _ Ht) in Hok.
    destruct Hc as [Hc|Hfail]; [|exfalso; apply Hok, in_app_iff; by right].
    intros Hboth. apply Hpre. apply Hc in Hboth. unfold both_on_disk, on_disk in *.
    rewrite <- !Hfs0; [done| |]; apply (own_not_output_dir f); first [done | by left | by right].
  - intros w0 w1 Hex.
    apply (extract_gzip_Ok_inv _ _ _ _ _ Hsuf Hout) in Hex as (data & o & _ & _ & Hfs).
    destruct (PathFacts.with_suffix_facts _ _ Hsuf Hout) as (Hne & _).
    unfold on_disk. rewrite Hfs. split.
    + rewrite lookup_delete_eq. by intros [? ?].
    + by rewrite lookup_delete_ne, lookup_insert_eq.
  - intros w0 n Hn. eexists. split; [by eapply pipeline_body_skip|done].
Qed.

Lemma at_most_one_persists_witness :
  let f := "title.basics.tsv.gz" in
  let w' := (run_pipeline Sample.E_ok Sample.empty_world).2 in
  ¬ both_on_disk w' f ∧
  (∀ w0 w1, extract_gzip Sample.E_ok (gz_path f) w0 = (Ok tt, w1) →
            ¬ on_disk w1 (gz_path f) ∧ on_disk w1 (tsv_path f)) ∧
  (∀ w0 n, OS.stat (fs w0) (tsv_path f) = Ok n →
           ∃ w1, pipeline_body Sample.E_ok f w0 = (Ok tt, w1) ∧ fs w1 = fs w0).
Proof.
  apply (at_most_one_persists Sample.E_ok "title.basics.tsv.gz" Sample.empty_world).
  - simpl. by left.
  - intros [[x Hx] _]. vm_compute in Hx. discriminate.
  - vm_compute. reflexivity.
  - vm_compute. intuition discriminate.
Defined.

(** * Further properties of the script *)

(** ** The fetcher, forwards *)

(** The records that close a transfer: the completion record, or the error
    record when the stream was cut by an exception the fetcher catches. *)
Lemma download_file_run E url dest r w :
  requests_get E url = Connected r →
  ¬ is_error_status r →
  OS.stat (fs w) (PurePath.parent dest) = Ok IDir →
  OS.node_at (fs w) dest ≠ Some IDir →
  download_file E url dest w =
    (match body_abort r with None => Ok tt | Some e => Raise e end,
     {| fs := <[dest := IFile (concat (body_chunks r))]> (fs w);
        trace := trace w ++
                 [EvLog INFO (Starting_download url); EvGet url; EvCreate dest] ++
                 map (λ _, EvWrite dest) (body_chunks r) ++
                 match body_abort r with
                 | None => [EvLog INFO (Download_complete (PurePath.name dest))]
                 | Some e =>
                     if is_RequestException e
                     then [EvLog ERROR (Network_error url e)] else []
                 end |}).
Proof.
  intros Hget Hst Hpar Hnode.
  unfold download_file, http_get, raise_for_status, iter_content, OS.open_wb.
  io_unfold. io_simpl. rewrite Hget. io_simpl.
  rewrite bool_decide_eq_false_2 by exact Hst. io_simpl. rewrite Hpar.
  set (w0 := {| fs := <[dest:=IFile []]> (fs w);
                trace := ((trace w ++ [EvLog INFO (Starting_download url)]) ++ [EvGet url])
                         ++ [EvCreate dest] |}).
  destruct (write_chunks_spec dest (body_chunks r) w0 []) as (w' & Hrun & Hfs & Htr).
  { simpl. by rewrite lookup_insert_eq. }
  assert (w' = {| fs := <[dest := IFile (concat (body_chunks r))]> (fs w);
                  trace := trace w ++
                    [EvLog INFO (Starting_download url); EvGet url; EvCreate dest] ++
                    map (λ _, EvWrite dest) (body_chunks r) |}) as Hw'.
  { destruct w' as [m t]. simpl in *. subst m t. rewrite insert_insert_eq.
    f_equal. by rewrite <- !app_assoc. }
  destruct (OS.node_at (fs w) dest) as [[d|]|]; [|done|]; fold w0; rewrite Hrun.
  all: destruct (body_abort r) as [e|]; io_simpl;
    [destruct (is_RequestException e)|]; io_simpl; subst w'; io_simpl;
    rewrite ?app_nil_r, <- ?app_assoc; reflexivity.
Qed.

Lemma not_root_snoc (p : Path) :
  OS.is_root p = false → ∃ c, p = removelast p ++ [c].
Proof.
  intros H. destruct p as [|x p] using rev_ind; [done|].
  exists x. by rewrite removelast_last.
Qed.

Lemma node_not_dir_not_root m p : OS.node_at m p ≠ Some IDir → OS.is_root p = false.
Proof. unfold OS.node_at. by destruct (OS.is_root p). Qed.

(** A file just written below a directory that resolves. *)
Lemma stat_written m p data :
  OS.stat m (PurePath.parent p) = Ok IDir →
  OS.is_root p = false →
  OS.stat (<[p := IFile data]> m) p = Ok (IFile data).
Proof.
  intros Hpar Hroot. rewrite (parent_not_root _ Hroot) in Hpar.
  destruct (not_root_snoc p Hroot) as [c Hp]. rewrite Hp at 1 2.
  rewrite stat_child; [| |by rewrite <- Hp].
  - by rewrite <- Hp, lookup_insert_eq.
  - by rewrite stat_dir_insert_child.
Qed.

Lemma last_after_writes {A} (l m : list A) a b c x :
  last (l ++ a :: b :: c :: m ++ [x]) = Some x.
Proof.
  change (a :: b :: c :: m ++ [x]) with ([a; b; c] ++ m ++ [x]).
  rewrite !app_assoc. apply last_snoc.
Qed.

(** The fetcher when [requests.get] raises. *)
Lemma download_file_conn_fail E url dest e w :
  requests_get E url = ConnFail e →
  download_file E url dest w =
    (Raise e,
     {| fs := fs w;
        trace := trace w ++
                 [EvLog INFO (Starting_download url); EvGet url] ++
                 if is_RequestException e
                 then [EvLog ERROR (Network_error url e)] else [] |}).
Proof.
  intros Hget. unfold download_file, http_get. io_unfold. io_simpl.
  rewrite Hget. io_simpl. destruct (is_RequestException e); io_simpl;
    by rewrite ?app_nil_r, <- ?app_assoc.
Qed.

(** X1 -- the server cannot be reached: [requests.get] raises, the fetcher
    logs the error when it is a [RequestException] and re-raises the same
    exception; no file is created and the file system is untouched. *)
Theorem download_connection_failure E url dest e w :
  requests_get E url = ConnFail e →
  download_file E url dest w =
    (Raise e,
     {| fs := fs w;
        trace := trace w ++
                 [EvLog INFO (Starting_download url); EvGet url] ++
                 if is_RequestException e
                 then [EvLog ERROR (Network_error url e)] else [] |}).
Proof. apply download_file_conn_fail. Qed.

Lemma download_connection_failure_witness :
  download_file Faulty.E_down (file_url "title.crew.tsv.gz")
    (gz_path "title.crew.tsv.gz") Sample.ready_world =
    (Raise ConnectionError,
     {| fs := fs Sample.ready_world;
        trace := trace Sample.ready_world ++
                 [EvLog INFO (Starting_download (file_url "title.crew.tsv.gz"));
                  EvGet (file_url "title.crew.tsv.gz")] ++
                 if is_RequestException ConnectionError
                 then [EvLog ERROR (Network_error (file_url "title.crew.tsv.gz")
                                      ConnectionError)]
                 else [] |}).
Proof.
  apply (download_connection_failure Faulty.E_down). reflexivity.
Defined.

(** The fetcher when [open] raises. *)
Lemma download_file_not_writable E url dest r w :
  requests_get E url = Connected r →
  ¬ (400 ≤ status_code r < 600)%Z →
  OS.stat (fs w) (PurePath.parent dest) ≠ Ok IDir ∨ OS.node_at (fs w) dest = Some IDir →
  ∃ e, download_file E url dest w =
         (Raise e,
          {| fs := fs w;
             trace := trace w ++ [EvLog INFO (Starting_download url); EvGet url] |}) ∧
       is_RequestException e = false ∧
       e ∈ [FileNotFoundError; NotADirectoryError; IsADirectoryError].
Proof.
  intros Hget Hst Hbad.
  unfold download_file, http_get, raise_for_status, OS.open_wb.
  io_unfold. io_simpl. rewrite Hget. io_simpl.
  rewrite bool_decide_eq_false_2 by exact Hst. io_simpl.
  destruct (OS.stat (fs w) (PurePath.parent dest)) as [[d|]|e] eqn:Hpar; io_simpl.
  - exists NotADirectoryError. simpl. rewrite <- app_assoc.
    split; [done|]. split; [done|]. apply list_elem_of_In. simpl. tauto.
  - destruct Hbad as [|Hnode]; [done|]. rewrite Hnode. io_simpl.
    exists IsADirectoryError. simpl. rewrite <- app_assoc.
    split; [done|]. split; [done|]. apply list_elem_of_In. simpl. tauto.
  - apply OSFacts.stat_Raise in Hpar as [->|[-> _]]; io_simpl.
    + exists FileNotFoundError. simpl. rewrite <- app_assoc.
      split; [done|]. split; [done|]. apply list_elem_of_In. simpl. tauto.
    + exists NotADirectoryError. simpl. rewrite <- app_assoc.
      split; [done|]. split; [done|]. apply list_elem_of_In. simpl. tauto.
Qed.

(** X2 -- the response is fine but the destination cannot be opened for
    writing (its directory does not resolve, or a directory sits at the
    destination): the [OSError] of [open] is not a [RequestException], so it
    leaves the fetcher without the fetcher's error record; the request has
    been sent, nothing is written. *)
Theorem download_destination_not_writable E url dest r w :
  requests_get E url = Connected r →
  ¬ (400 ≤ status_code r < 600)%Z →
  OS.stat (fs w) (PurePath.parent dest) ≠ Ok IDir ∨ OS.node_at (fs w) dest = Some IDir →
  ∃ e, download_file E url dest w =
         (Raise e,
          {| fs := fs w;
             trace := trace w ++ [EvLog INFO (Starting_download url); EvGet url] |}) ∧
       is_RequestException e = false ∧
       e ∈ [FileNotFoundError; NotADirectoryError; IsADirectoryError].
Proof. apply download_file_not_writable. Qed.

Lemma download_destination_not_writable_witness :
  ∃ e, download_file Sample.E_ok (file_url "title.crew.tsv.gz")
         (gz_path "title.crew.tsv.gz") Sample.empty_world =
         (Raise e,
          {| fs := fs Sample.empty_world;
             trace := trace Sample.empty_world ++
                      [EvLog INFO (Starting_download (file_url "title.crew.tsv.gz"));
                       EvGet (file_url "title.crew.tsv.gz")] |}) ∧
       is_RequestException e = false ∧
       e ∈ [FileNotFoundError; NotADirectoryError; IsADirectoryError].
Proof.
  apply (download_destination_not_writable Sample.E_ok _ _
           (Response 200 [[x1f; x8b]; Sample.payload] None)).
  - reflexivity.
  - simpl. lia.
  - left. by vm_compute.
Defined.

(** X3 -- the transfer is cut while the body is streamed: the destination
    has been truncated and holds exactly the chunks received, whatever was
    there before; the exception is re-raised, after the error record when it
    is a [RequestException]. *)
Theorem download_interrupted_leaves_partial_file E url dest r e w :
  requests_get E url = Connected r →
  ¬ (400 ≤ status_code r < 600)%Z →
  body_abort r = Some e →
  OS.stat (fs w) (PurePath.parent dest) = Ok IDir →
  OS.node_at (fs w) dest ≠ Some IDir →
  ∃ w', download_file E url dest w = (Raise e, w') ∧
        fs w' = <[dest := IFile (concat (body_chunks r))]> (fs w) ∧
        OS.stat (fs w') dest = Ok (IFile (concat (body_chunks r))) ∧
        (is_RequestException e = true →
         last (trace w') = Some (EvLog ERROR (Network_error url e))).
Proof.
  intros Hget Hst Hab Hpar Hnode.
  rewrite (download_file_run _ _ _ _ _ Hget Hst Hpar Hnode), Hab.
  eexists. split; [done|]. simpl. split; [done|]. split.
  - apply stat_written; [done|]. by eapply node_not_dir_not_root.
  - intros ->. apply last_after_writes.
Qed.

Lemma download_interrupted_leaves_partial_file_witness :
  ∃ w', download_file Faulty.E_cut (file_url "title.basics.tsv.gz")
          (gz_path "title.basics.tsv.gz") Sample.archived_world
        = (Raise ChunkedEncodingError, w') ∧
        fs w' = <[gz_path "title.basics.tsv.gz" := IFile (concat [[x1f]])]>
                  (fs Sample.archived_world) ∧
        OS.stat (fs w') (gz_path "title.basics.tsv.gz") = Ok (IFile (concat [[x1f]])) ∧
        (is_RequestException ChunkedEncodingError = true →
         last (trace w') = Some (EvLog ERROR (Network_error (file_url "title.basics.tsv.gz")
                                               ChunkedEncodingError))).
Proof.
  apply (download_interrupted_leaves_partial_file Faulty.E_cut _ _
           (Response 200 [[x1f]] (Some ChunkedEncodingError))).
  - reflexivity.
  - simpl. lia.
  - reflexivity.
  - by vm_compute.
  - by vm_compute.
Defined.



(** X5 -- whatever happens, the fetcher changes no path but its
    destination; it logs its start, sends one request, to its own location,
    and after that only logs, creates its destination or writes to it: it
    sends no second request and never removes anything. *)
Theorem download_footprint E url dest w :
  let w' := (download_file E url dest w).2 in
  (∀ k, k ≠ dest → fs w' !! k = fs w !! k) ∧
  ∃ t, new_events w w' = EvLog INFO (Starting_download url) :: EvGet url :: t ∧
       Forall (writes_only dest) t.
Proof.
  destruct (requests_get E url) as [e|r] eqn:Hget.
  { rewrite (download_file_conn_fail _ _ _ _ _ Hget). simpl. split; [done|].
    eexists. split; [by apply new_events_app|].
    destruct (is_RequestException e); repeat constructor. }
  destruct (decide (is_error_status r)) as [Hst|Hst].
  { rewrite (download_file_error_status _ _ _ _ _ Hget Hst). simpl. split; [done|].
    eexists. split; [by apply new_events_app|]. repeat constructor. }
  assert (OS.stat (fs w) (PurePath.parent dest) ≠ Ok IDir ∨
          OS.node_at (fs w) dest = Some IDir ∨
          (OS.stat (fs w) (PurePath.parent dest) = Ok IDir ∧
           OS.node_at (fs w) dest ≠ Some IDir)) as [Hbad|[Hbad|[Hpar Hnode]]].
  { destruct (OS.stat (fs w) (PurePath.parent dest)) as [[d|]|e]; [by left| |by left].
    destruct (OS.node_at (fs w) dest) as [[d|]|]; [|by right; left|]; by right; right. }
  - destruct (download_file_not_writable _ _ dest _ w Hget Hst
                (or_introl Hbad)) as (e & -> & _). simpl. split; [done|].
    eexists. split; [by apply new_events_app|]. constructor.
  - destruct (download_file_not_writable _ _ dest _ w Hget Hst
                (or_intror Hbad)) as (e & -> & _). simpl. split; [done|].
    eexists. split; [by apply new_events_app|]. constructor.
  - rewrite (download_file_run _ _ _ _ _ Hget Hst Hpar Hnode). simpl. split.
    { intros k Hk. by rewrite lookup_insert_ne. }
    eexists. split; [by apply new_events_app|].
    constructor; [done|]. apply Forall_app. split.
    + apply Forall_forall. intros ev Hev. apply list_elem_of_fmap in Hev as (? & -> & _). done.
    + destruct (body_abort r) as [e|]; [destruct (is_RequestException e)|];
        repeat constructor.
Qed.

(** ** The extractor, forwards *)

(** X6 -- the archive is not a regular file (it is missing, or a directory
    sits there): the extractor logs its start and the failure and raises;
    the output file is not created, nothing changes on disk. *)
Theorem extract_without_archive E p out w :
  PurePath.with_suffix_empty p = Some out →
  (∀ data, OS.stat (fs w) p ≠ Ok (IFile data)) →
  ∃ e, extract_gzip E p w =
         (Raise e,
          {| fs := fs w;
             trace := trace w ++
                      [EvLog INFO (Extracting (PurePath.name p) (PurePath.name out));
                       EvLog ERROR (Failed_to_extract p e)] |}) ∧
       (OS.stat (fs w) p = Ok IDir ∧ e = IsADirectoryError ∨
        OS.stat (fs w) p = Raise e).
Proof.
  intros Hout Hstat. unfold extract_gzip, with_suffix_empty, OS.open_rb.
  rewrite Hout. io_unfold. io_simpl.
  destruct (OS.stat (fs w) p) as [[data|]|e] eqn:Hp; io_simpl.
  - by destruct (Hstat data).
  - exists IsADirectoryError. simpl. rewrite <- app_assoc. split; [done|]. by left.
  - exists e. rewrite is_Exception_all. io_simpl. rewrite <- app_assoc.
    split; [done|]. by right.
Qed.

Lemma extract_without_archive_witness :
  ∃ e, extract_gzip Sample.E_ok (gz_path "title.crew.tsv.gz") Sample.ready_world =
         (Raise e,
          {| fs := fs Sample.ready_world;
             trace := trace Sample.ready_world ++
                      [EvLog INFO (Extracting (PurePath.name (gz_path "title.crew.tsv.gz"))
                                     (PurePath.name (tsv_path "title.crew.tsv.gz")));
                       EvLog ERROR (Failed_to_extract (gz_path "title.crew.tsv.gz") e)] |}) ∧
       (OS.stat (fs Sample.ready_world) (gz_path "title.crew.tsv.gz") = Ok IDir ∧
        e = IsADirectoryError ∨
        OS.stat (fs Sample.ready_world) (gz_path "title.crew.tsv.gz") = Raise e).
Proof.
  apply (extract_without_archive Sample.E_ok (gz_path "title.crew.tsv.gz")
           (tsv_path "title.crew.tsv.gz") Sample.ready_world).
  - reflexivity.
  - intros data. by vm_compute.
Defined.




(** X8 -- all or nothing: on an existing archive whose name has a suffix,
    the extractor either returns normally, and then the archive is gone and
    its content was a valid stream, or raises, and then the archive is still
    there with the content it had and was never unlinked -- whether the
    output could not be opened, the stream was corrupt, or the removal was
    refused. *)
Theorem extract_all_or_nothing E p data w :
  PurePath.suffix p ≠ "" →
  OS.stat (fs w) p = Ok (IFile data) →
  ∃ r w', extract_gzip E p w = (r, w') ∧
    match r with
    | Ok _ => fs w' !! p = None ∧ In (EvUnlink p) (new_events w w') ∧
              ∃ o, gunzip E data = GzOk o
    | Raise e => OS.stat (fs w') p = Ok (IFile data) ∧
                 ¬ In (EvUnlink p) (new_events w w') ∧
                 last (new_events w w') = Some (EvLog ERROR (Failed_to_extract p e))
    end.
Proof.
  intros Hsuf Hstat.
  destruct (PathFacts.with_suffix_sibling p Hsuf) as (stem & Hout & _ & _).
  destruct (PathFacts.with_suffix_facts p _ Hsuf Hout) as (Hne & Hlen & _ & _).
  destruct (extract_gzip_cases E p _ data w Hsuf Hout Hstat) as (r & w' & Hrun & Hcases).
  exists r, w'. split; [done|].
  assert (∀ n, OS.stat (<[removelast p ++ [stem] := n]> (fs w)) p = Ok (IFile data)) as Hkeep.
  { intros n. rewrite OSFacts.stat_insert_ne; [done|]. by apply OSFacts.sibling_not_prefix. }
  destruct Hcases as [(e & -> & _ & Hfs & Htr)|(_ & [(wr & e & _ & -> & Hfs & Htr)|
    [(o & e & _ & _ & -> & Hfs & Htr)|(o & Hgz & _ & -> & Hfs & Htr)]])];
    rewrite (new_events_app _ _ _ Htr), Hfs; simpl.
  - split; [done|]. split; [intuition discriminate|done].
  - split; [done|]. split; [intuition discriminate|done].
  - split; [done|]. split; [intuition discriminate|done].
  - rewrite lookup_delete_eq. split; [done|]. split; [tauto|eauto].
Qed.

Lemma extract_all_or_nothing_witness :
  ∃ r w', extract_gzip Sample.E_locked (gz_path "title.basics.tsv.gz")
            Sample.archived_world = (r, w') ∧
    match r with
    | Ok _ => fs w' !! gz_path "title.basics.tsv.gz" = None ∧
              In (EvUnlink (gz_path "title.basics.tsv.gz"))
                 (new_events Sample.archived_world w') ∧
              ∃ o, gunzip Sample.E_locked Sample.archive = GzOk o
    | Raise e => OS.stat (fs w') (gz_path "title.basics.tsv.gz") = Ok (IFile Sample.archive) ∧
                 ¬ In (EvUnlink (gz_path "title.basics.tsv.gz"))
                     (new_events Sample.archived_world w') ∧
                 last (new_events Sample.archived_world w')
                 = Some (EvLog ERROR (Failed_to_extract (gz_path "title.basics.tsv.gz") e))
    end.
Proof.
  apply (extract_all_or_nothing Sample.E_locked (gz_path "title.basics.tsv.gz")
           Sample.archive Sample.archived_world).
  - by vm_compute.
  - by vm_compute.
Defined.

(** X9 -- whatever happens, the extractor sends no request and changes no
    path other than the archive and the output path. *)
Theorem extract_footprint E p w :
  let w' := (extract_gzip E p w).2 in
  (∀ k, k ≠ p → k ≠ output_of p → fs w' !! k = fs w !! k) ∧
  Forall (ev_within nowhere (λ k, k = p ∨ k = output_of p)) (new_events w w').
Proof.
  destruct (extract_gzip E p w) as [r w'] eqn:Hrun. simpl.
  destruct (confined_extract_gzip nowhere (λ k, k = p ∨ k = output_of p) E p)
    with (w := w) (r := r) (w' := w') as (Hfs & t & Ht & HF); [by left| |done|].
  { intros out Hout. right. unfold output_of. by rewrite Hout. }
  split; [intros k Hk1 Hk2; apply Hfs; tauto|].
  by rewrite (new_events_app _ _ _ Ht).
Qed.

(** ** One resource, forwards *)

Lemma own_child f k :
  In f FILES_TO_DOWNLOAD → own f k →
  ∃ c, k = OUTPUT_DIR ++ [c].
Proof.
  intros Hf Hk. simpl in Hf.
  destruct Hf as [<-|[<-|[<-|[<-|[]]]]]; destruct Hk as [-> | ->]; by eexists.
Qed.

Lemma child_not_root c : OS.is_root (OUTPUT_DIR ++ [c]) = false.
Proof. apply bool_decide_eq_false_2. by intros [?|?]. Qed.

Lemma child_parent c : PurePath.parent (OUTPUT_DIR ++ [c]) = OUTPUT_DIR.
Proof. rewrite (parent_not_root _ (child_not_root c)). by rewrite removelast_last. Qed.





(** The world after the fetch of a resource that is served to its end. *)
Lemma fetch_of_served E f body w :
  In f FILES_TO_DOWNLOAD →
  OS.stat (fs w) OUTPUT_DIR = Ok IDir →
  fs w !! tsv_path f = None →
  fs w !! gz_path f ≠ Some IDir →
  serves E f body →
  ∃ w1, download_file E (file_url f) (gz_path f) w = (Ok tt, w1) ∧
        fs w1 = <[gz_path f := IFile body]> (fs w) ∧
        OS.stat (fs w1) (gz_path f) = Ok (IFile body) ∧
        OS.node_at (fs w1) (tsv_path f) ≠ Some IDir ∧
        pipeline_body E f w = fetch_then_extract E f w.
Proof.
  intros Hf Hdir Htsv Hgz (r & Hget & Hst & Hab & Hbody).
  destruct (with_suffix_gz_path f Hf) as [Hout Hsuf].
  destruct (own_child f (gz_path f) Hf) as [cg Hcg]; [by left|].
  destruct (own_child f (tsv_path f) Hf) as [ct Hct]; [by right|].
  assert (tsv_path f ≠ gz_path f) as Hne.
  { by destruct (PathFacts.with_suffix_facts _ _ Hsuf Hout) as (? & _). }
  assert (OS.stat (fs w) (tsv_path f) = Raise FileNotFoundError) as Habsent.
  { rewrite Hct, stat_child; [|done|apply child_not_root]. by rewrite <- Hct, Htsv. }
  assert (OS.stat (fs w) (PurePath.parent (gz_path f)) = Ok IDir) as Hpar.
  { by rewrite Hcg, child_parent. }
  assert (OS.node_at (fs w) (gz_path f) ≠ Some IDir) as Hnode.
  { unfold OS.node_at. by rewrite Hcg, child_not_root, <- Hcg. }
  pose proof (download_file_run E _ _ r w Hget Hst Hpar Hnode) as Hdl.
  rewrite Hab, Hbody in Hdl.
  eexists. split; [exact Hdl|]. simpl. split_and!; try done.
  - apply stat_written; [done|]. by rewrite Hcg, child_not_root.
  - unfold OS.node_at. rewrite Hct, child_not_root, <- Hct.
    by rewrite lookup_insert_ne, Htsv.
  - by eapply pipeline_body_attempt.
Qed.

(** X11 -- the location serves, to its end and with a success status, a
    body that is no valid compressed stream.  The body of the loop downloads
    it, the extraction fails and the failure is logged; but the output file
    was opened before the first byte was decompressed, so the extracted path
    now exists, holding what was written before the error.  Every later run,
    whatever its environment, finds it, skips the resource without a request
    and leaves that truncated file as the result. *)
Theorem corrupt_download_is_never_retried E f body written e w :
  In f FILES_TO_DOWNLOAD →
  OS.stat (fs w) OUTPUT_DIR = Ok IDir →
  fs w !! tsv_path f = None →
  fs w !! gz_path f ≠ Some IDir →
  serves E f body →
  gunzip E body = GzFail written e →
  ∃ w1, pipeline_body E f w = (Ok tt, w1) ∧
        In (EvLog ERROR (Pipeline_failed f)) (new_events w w1) ∧
        OS.stat (fs w1) (tsv_path f) = Ok (IFile written) ∧
        OS.stat (fs w1) (gz_path f) = Ok (IFile body) ∧
        ∀ Es E',
          ∃ w3, run_pipeline E' (runs Es w1) = (Ok tt, w3) ∧
                In (EvLog INFO (Skipping f)) (new_events (runs Es w1) w3) ∧
                ¬ In (EvGet (file_url f)) (new_events (runs Es w1) w3) ∧
                OS.stat (fs w3) (tsv_path f) = Ok (IFile written).
Proof.
  intros Hf Hdir Htsv Hgz Hserves Hgun.
  destruct (with_suffix_gz_path f Hf) as [Hout Hsuf].
  destruct (own_child f (tsv_path f) Hf) as [ct Hct]; [by right|].
  destruct (PathFacts.with_suffix_facts _ _ Hsuf Hout) as (Hne & Hlen & _ & _).
  destruct (fetch_of_served E f body w Hf Hdir Htsv Hgz Hserves)
    as (w0 & Hdl & Hfs0 & Hst0 & Hno0 & Hbody).
  destruct (extract_gzip_cases E _ _ body w0 Hsuf Hout Hst0) as (r & w1 & Hex & Hcases).
  destruct Hcases as [(? & _ & ? & _)|(_ & [Hc|[(? & ? & ? & _)|(? & ? & _)]])];
    try congruence.
  destruct Hc as (written' & e' & Hgun' & -> & Hfs1 & Htr1).
  rewrite Hgun in Hgun'. injection Hgun' as <- <-.
  set (w2 := logged (EvLog ERROR (Pipeline_failed f)) w1).
  assert (pipeline_body E f w = (Ok tt, w2)) as Hrun.
  { rewrite Hbody. unfold fetch_then_extract, try_except.
    by rewrite (bind_Ok _ _ _ _ _ Hdl), Hex, is_Exception_all. }
  assert (OS.stat (fs w2) (tsv_path f) = Ok (IFile written)) as Htsv2.
  { simpl. rewrite Hfs1. apply stat_written.
    - rewrite Hfs0, Hct, child_parent.
      rewrite OSFacts.stat_insert_ne; [done|].
      destruct (own_child f (gz_path f) Hf) as [cg ->]; [by left|].
      apply OSFacts.longer_not_prefix. rewrite length_app. simpl. lia.
    - rewrite Hct. apply child_not_root. }
  assert (OS.stat (fs w2) (gz_path f) = Ok (IFile body)) as Hgz2.
  { simpl. rewrite Hfs1, OSFacts.stat_insert_ne; [done|].
    by apply OSFacts.sibling_not_prefix. }
  exists w2. split_and!; try done.
  - destruct (trace_extends _ w _ w0
                (confined_download_file anywhere anywhere E _ _ I I) Hdl) as [t0 Ht0].
    erewrite new_events_app.
    2:{ simpl. rewrite Htr1, Ht0, <- !app_assoc. done. }
    rewrite !in_app_iff. right. right. by left.
  - intros Es E'.
    assert (settled f (IFile written) (Ok (IFile body)) (runs Es w2)) as Hset
      by by apply runs_settled.
    destruct (run_settled E' f _ _ _ Hf Hset)
      as (w3 & t & Hrun3 & [Htsv3 _] & Ht & Hun & Hskip).
    exists w3. rewrite (new_events_app _ _ _ Ht).
    apply untouched_not_in in Hun as (? & _). by split_and!.
Qed.

Lemma corrupt_download_is_never_retried_witness :
  ∃ w1, pipeline_body Faulty.E_garbage "title.crew.tsv.gz" Sample.ready_world = (Ok tt, w1) ∧
        In (EvLog ERROR (Pipeline_failed "title.crew.tsv.gz"))
           (new_events Sample.ready_world w1) ∧
        OS.stat (fs w1) (tsv_path "title.crew.tsv.gz") = Ok (IFile []) ∧
        OS.stat (fs w1) (gz_path "title.crew.tsv.gz") = Ok (IFile Sample.garbage) ∧
        ∀ Es E',
          ∃ w3, run_pipeline E' (runs Es w1) = (Ok tt, w3) ∧
                In (EvLog INFO (Skipping "title.crew.tsv.gz")) (new_events (runs Es w1) w3) ∧
                ¬ In (EvGet (file_url "title.crew.tsv.gz")) (new_events (runs Es w1) w3) ∧
                OS.stat (fs w3) (tsv_path "title.crew.tsv.gz") = Ok (IFile []).
Proof.
  apply (corrupt_download_is_never_retried Faulty.E_garbage "title.crew.tsv.gz"
           Sample.garbage [] BadGzipFile Sample.ready_world).
  - simpl. do 3 right. by left.
  - by vm_compute.
  - by vm_compute.
  - by vm_compute.
  - exists (Response 200 [Sample.garbage] None).
    split; [reflexivity|]. split; [unfold is_error_status; simpl; lia|]. by split.
  - reflexivity.
Defined.

(** ** Whole runs, forwards *)






(** The loop when every resource is extracted already: one skip record
    each, nothing else. *)
Lemma pipeline_loop_all_skipped E files : ∀ w,
  (∀ f, In f files → ∃ n, OS.stat (fs w) (tsv_path f) = Ok n) →
  for_each files (pipeline_body E) w =
    (Ok tt, {| fs := fs w;
               trace := trace w ++ map (λ f, EvLog INFO (Skipping f)) files |}).
Proof.
  induction files as [|f files IH]; intros w Hall; simpl.
  - rewrite app_nil_r. by destruct w.
  - destruct (Hall f) as [n Hn]; [by left|].
    rewrite (bind_Ok _ _ _ _ _ (pipeline_body_skip E f w n Hn)).
    rewrite IH; [|intros g Hg; apply Hall; by right].
    simpl. by rewrite <- app_assoc.
Qed.

Lemma run_all_skipped E w :
  (∀ f, In f FILES_TO_DOWNLOAD → ∃ n, OS.stat (fs w) (tsv_path f) = Ok n) →
  run_pipeline E w =
    (Ok tt, {| fs := fs w;
               trace := trace w ++ map (λ f, EvLog INFO (Skipping f)) FILES_TO_DOWNLOAD |}).
Proof.
  intros Hall.
  assert (Pathlib.mkdir_parents_exist_ok OUTPUT_DIR w = (Ok tt, w)) as Hmk.
  { apply mkdir_parents_rev_noop. rewrite rev_involutive.
    destruct (Hall "title.basics.tsv.gz") as [n Hn]; [by left|].
    by apply (stat_prefix_dir _ OUTPUT_DIR ["title.basics.tsv"] n). }
  unfold run_pipeline, run_pipeline_over. rewrite (bind_Ok _ _ _ _ _ Hmk).
  by apply pipeline_loop_all_skipped.
Qed.





(** X13 -- when all four extracted paths exist, a run is four skip records
    in list order and nothing else: it returns normally, sends no request,
    creates, writes and removes nothing, and leaves the file system exactly
    as it was -- whatever the server would have answered. *)
Theorem run_with_everything_extracted E w :
  (∀ f, In f FILES_TO_DOWNLOAD → ∃ n, OS.stat (fs w) (tsv_path f) = Ok n) →
  run_pipeline E w =
    (Ok tt, {| fs := fs w;
               trace := trace w ++ map (λ f, EvLog INFO (Skipping f)) FILES_TO_DOWNLOAD |}).
Proof. apply run_all_skipped. Qed.

Lemma run_with_everything_extracted_witness :
  run_pipeline Faulty.E_down Faulty.complete_world =
    (Ok tt, {| fs := fs Faulty.complete_world;
               trace := trace Faulty.complete_world ++
                        map (λ f, EvLog INFO (Skipping f)) FILES_TO_DOWNLOAD |}).
Proof.
  apply (run_with_everything_extracted Faulty.E_down Faulty.complete_world).
  intros f Hf. exists (IFile Sample.payload). simpl in Hf.
  destruct Hf as [<-|[<-|[<-|[<-|[]]]]]; by vm_compute.
Defined.



(** X15 -- idempotency of a whole run, one resource at a time: if the
    extracted path of one of the four resources exists before the run, the
    run returns normally and skips it; it sends no request to its location,
    never creates, writes or unlinks its archive or its extracted file, and
    both paths resolve afterwards exactly as before -- whatever happens to
    the other three. *)
Theorem run_skips_what_is_extracted E f n w :
  In f FILES_TO_DOWNLOAD →
  OS.stat (fs w) (tsv_path f) = Ok n →
  ∃ w', run_pipeline E w = (Ok tt, w') ∧
        In (EvLog INFO (Skipping f)) (new_events w w') ∧
        untouched f (new_events w w') ∧
        OS.stat (fs w') (tsv_path f) = Ok n ∧
        OS.stat (fs w') (gz_path f) = OS.stat (fs w) (gz_path f).
Proof.
  intros Hf Hn.
  destruct (run_settled E f n (OS.stat (fs w) (gz_path f)) w Hf)
    as (w' & t & Hrun & [Htsv Hgz] & Ht & Hun & Hskip); [by split|].
  exists w'. rewrite (new_events_app _ _ _ Ht). by split_and!.
Qed.

Lemma run_skips_what_is_extracted_witness :
  ∃ w', run_pipeline Sample.E_404 Sample.stale_world = (Ok tt, w') ∧
        In (EvLog INFO (Skipping "title.basics.tsv.gz")) (new_events Sample.stale_world w') ∧
        untouched "title.basics.tsv.gz" (new_events Sample.stale_world w') ∧
        OS.stat (fs w') (tsv_path "title.basics.tsv.gz") = Ok (IFile Sample.payload) ∧
        OS.stat (fs w') (gz_path "title.basics.tsv.gz")
        = OS.stat (fs Sample.stale_world) (gz_path "title.basics.tsv.gz").
Proof.
  apply (run_skips_what_is_extracted Sample.E_404 "title.basics.tsv.gz"
           (IFile Sample.payload) Sample.stale_world).
  - simpl. by left.
  - by vm_compute.
Defined.

(** X16 -- the reach of a run: whatever the environment does, a run changes
    the file system only at the segments of the output directory and at the
    archive and extracted paths of the four resources, and sends requests
    only to the four locations. *)
Theorem run_footprint E w :
  let w' := (run_pipeline E w).2 in
  let ours k := k `prefix_of` OUTPUT_DIR ∨ ∃ f, In f FILES_TO_DOWNLOAD ∧ own f k in
  let locations u := ∃ f, In f FILES_TO_DOWNLOAD ∧ u = file_url f in
  (∀ k, ¬ ours k → fs w' !! k = fs w !! k) ∧
  Forall (ev_within locations ours) (new_events w w').
Proof.
  intros w' ours locations. subst w'.
  destruct (run_pipeline E w) as [r w'] eqn:Hrun. simpl.
  assert (confined locations ours (run_pipeline E)) as Hconf.
  { unfold run_pipeline, run_pipeline_over, Pathlib.mkdir_parents_exist_ok.
    apply confined_bind.
    - eapply confined_mono; [| |apply confined_mkdir_parents_rev]; [done|].
      intros k Hk. left. by rewrite rev_involutive in Hk.
    - intros _. apply confined_for_each. intros f Hf. apply list_elem_of_In in Hf.
      eapply confined_mono; [| |by apply confined_pipeline_body].
      + intros u ->. by exists f.
      + intros k Hk. right. by exists f. }
  destruct (Hconf w r w' Hrun) as (Hfs & t & Ht & HF).
  split; [done|]. by rewrite (new_events_app _ _ _ Ht).
Qed.

(** ** Which file names keep the two computations of the extracted path in
    step *)

Module NameFacts.

Lemma length_append (a b : string) :
  String.length (a +:+ b) = String.length a + String.length b.
Proof. induction a as [|c a IH]; simpl; [done|]. by rewrite IH. Qed.

Lemma take_app (a b : string) : Str.take (String.length a) (a +:+ b) = a.
Proof.
  unfold Str.take. induction a as [|c a IH]; simpl.
  - by destruct b.
  - by rewrite IH.
Qed.

Lemma substring_all (b : string) : String.substring 0 (String.length b) b = b.
Proof. induction b as [|c b IH]; simpl; [done|]. by rewrite IH. Qed.

Lemma drop_app (a b : string) : Str.drop (String.length a) (a +:+ b) = b.
Proof.
  unfold Str.drop. rewrite length_append.
  replace (String.length a + String.length b - String.length a)
    with (String.length b) by lia.
  induction a as [|c a IH]; simpl; [apply substring_all|done].
Qed.

Lemma rfind_dot_gz (s : string) : ∀ i last,
  Str.rfind_dot_from i (s +:+ ".gz") last = Some (i + String.length s).
Proof.
  induction s as [|c s IH]; intros i last; simpl.
  - f_equal. lia.
  - rewrite IH. f_equal. lia.
Qed.

Lemma occurs_tail pat c s : occurs pat (String c s) = false → occurs pat s = false.
Proof. simpl. by intros [_ ?]%orb_false_elim. Qed.

Lemma occurs_head pat s : occurs pat s = false → Str.startswith pat s = false.
Proof. destruct s; simpl; by intros [? _]%orb_false_elim. Qed.

(** A name without a slash is one segment. *)
Lemma split_no_slash (s : string) :
  occurs "/" s = false → Str.split_on "/" s = [s].
Proof.
  induction s as [|c s IH]; [done|]. intros H.
  pose proof (occurs_head _ _ H) as Hc. apply occurs_tail in H.
  cbn [Str.startswith Str.split_on] in *. rewrite (Ascii.eqb_sym c).
  destruct (Ascii.eqb "/" c); [done|]. by rewrite (IH H).
Qed.

Lemma joinpath_plain (p : Path) (s : string) :
  s ≠ "" → s ≠ "." → occurs "/" s = false → p /: s = p ++ [s].
Proof.
  intros H1 H2 H. unfold PurePath.joinpath, PurePath.segments.
  rewrite (occurs_head _ _ H), (split_no_slash _ H).
  rewrite filter_cons, filter_nil. by rewrite decide_True.
Qed.

(** The pattern cannot start inside the stem and end inside the suffix. *)
Lemma startswith_gz_app (s : string) :
  s ≠ "" → Str.startswith ".gz" s = false → Str.startswith ".gz" (s +:+ ".gz") = false.
Proof.
  intros Hs H. destruct s as [|c1 [|c2 [|c3 s]]]; [done| | |exact H].
  - change (String c1 "" +:+ ".gz") with (String c1 ".gz").
    cbn [Str.startswith]. destruct (Ascii.eqb "." c1); reflexivity.
  - change (String c1 (String c2 "") +:+ ".gz") with (String c1 (String c2 ".gz")).
    cbn [Str.startswith].
    destruct (Ascii.eqb "." c1); [|reflexivity].
    destruct (Ascii.eqb "g" c2); reflexivity.
Qed.

Lemma replace_gz (s : string) :
  occurs ".gz" s = false → Str.replace (s +:+ ".gz") ".gz" "" = s.
Proof.
  unfold Str.replace. induction s as [|c s IH]; [done|]. intros H.
  assert (String c s ≠ "") as Hne by discriminate.
  pose proof (startswith_gz_app _ Hne (occurs_head _ _ H)) as Hc.
  apply occurs_tail in H.
  change (String c s +:+ ".gz") with (String c (s +:+ ".gz")) in *.
  cbn [Str.replace_from]. rewrite Hc. by rewrite (IH H).
Qed.

Lemma occurs_slash_app (a b : string) :
  occurs "/" a = false → occurs "/" b = false → occurs "/" (a +:+ b) = false.
Proof.
  intros Ha Hb. induction a as [|c a IH]; [done|].
  pose proof (occurs_head _ _ Ha) as Hc. apply occurs_tail in Ha.
  change (String c a +:+ b) with (String c (a +:+ b)).
  cbn [occurs]. rewrite (IH Ha), orb_false_r. cbn [Str.startswith] in *.
  by destruct (Ascii.eqb "/" c).
Qed.

End NameFacts.

(** X17 -- for every file name [stem.gz] whose stem is not empty, is not a
    single dot and contains neither a slash nor another [.gz], the path the
    orchestrator tests and the path the extractor writes are the same:
    [stem] in the output directory.  (Outside these conditions they can
    differ: see [replace_all_occurrences], [with_suffix_last_only] and
    [with_suffix_dotfile].) *)
Theorem plain_names_keep_paths_in_step stem :
  stem ≠ "" → stem ≠ "." →
  occurs "/" stem = false →
  occurs ".gz" stem = false →
  tsv_path (stem +:+ ".gz") = OUTPUT_DIR ++ [stem] ∧
  PurePath.with_suffix_empty (gz_path (stem +:+ ".gz")) = Some (tsv_path (stem +:+ ".gz")) ∧
  PurePath.suffix (gz_path (stem +:+ ".gz")) = ".gz".
Proof.
  intros H1 H2 Hslash Hgz.
  assert (String.length (stem +:+ ".gz") = String.length stem + 3) as Hlen
    by by rewrite NameFacts.length_append.
  assert (0 < String.length stem)%nat as Hpos by (destruct stem; [done|simpl; lia]).
  assert (stem +:+ ".gz" ≠ "") as Hn1 by (intros Heq; rewrite Heq in Hlen; simpl in Hlen; lia).
  assert (stem +:+ ".gz" ≠ ".") as Hn2 by (intros Heq; rewrite Heq in Hlen; simpl in Hlen; lia).
  assert (stem +:+ ".gz" ≠ "/") as Hn3 by (intros Heq; rewrite Heq in Hlen; simpl in Hlen; lia).
  assert (tsv_path (stem +:+ ".gz") = OUTPUT_DIR ++ [stem]) as Htsv.
  { unfold tsv_path. rewrite (NameFacts.replace_gz _ Hgz).
    by apply NameFacts.joinpath_plain. }
  assert (gz_path (stem +:+ ".gz") = OUTPUT_DIR ++ [stem +:+ ".gz"]) as Hgzp.
  { unfold gz_path. apply NameFacts.joinpath_plain; try done.
    by apply NameFacts.occurs_slash_app. }
  assert (PurePath.name (gz_path (stem +:+ ".gz")) = stem +:+ ".gz") as Hname.
  { unfold PurePath.name. rewrite Hgzp, last_snoc.
    by destruct (String.eqb_spec (stem +:+ ".gz") "/"). }
  assert (PurePath.suffix (gz_path (stem +:+ ".gz")) = ".gz") as Hsuf.
  { unfold PurePath.suffix, Str.rfind_dot. rewrite Hname, NameFacts.rfind_dot_gz. simpl.
    rewrite bool_decide_eq_true_2 by lia. apply NameFacts.drop_app. }
  split; [done|]. split; [|done].
  unfold PurePath.with_suffix_empty. rewrite Hsuf, Hname.
  destruct (String.eqb_spec (stem +:+ ".gz") "") as [|_]; [done|]. simpl.
  rewrite Hlen. replace (String.length stem + 3 - 3) with (String.length stem) by lia.
  rewrite NameFacts.take_app, Htsv, Hgzp. by rewrite removelast_last.
Qed.

Lemma plain_names_keep_paths_in_step_witness :
  tsv_path ("title.akas.tsv" +:+ ".gz") = OUTPUT_DIR ++ ["title.akas.tsv"] ∧
  PurePath.with_suffix_empty (gz_path ("title.akas.tsv" +:+ ".gz"))
  = Some (tsv_path ("title.akas.tsv" +:+ ".gz")) ∧
  PurePath.suffix (gz_path ("title.akas.tsv" +:+ ".gz")) = ".gz".
Proof.
  apply (plain_names_keep_paths_in_step "title.akas.tsv"); by vm_compute.
Defined.

(** ** Failures and the next run *)




(** ** A blocked output directory *)

Lemma walk_through_file m rest : ∀ cur d c,
  OS.walk m cur rest = Ok (IFile d) →
  ∀ more, OS.walk m cur (rest ++ c :: more) = Raise NotADirectoryError.
Proof.
  induction rest as [|x rest IH]; intros cur d c H more; simpl in *.
  - destruct (OS.node_at m cur) as [[?|]|]; naive_solver.
  - destruct (OS.node_at m cur) as [[?|]|]; try done. by eapply IH.
Qed.

(** Below a regular file nothing resolves. *)
Lemma stat_through_file m q d r :
  OS.stat m q = Ok (IFile d) → r ≠ [] → OS.stat m (q ++ r) = Raise NotADirectoryError.
Proof.
  intros H Hr. destruct r as [|c more]; [done|]. by eapply walk_through_file.
Qed.

(** [mkdir(parents=True, exist_ok=True)] with a regular file at the path or
    at one of its ancestors: it raises at once and creates nothing. *)
Lemma mkdir_parents_rev_blocked rp q d w :
  q `prefix_of` rev rp →
  OS.stat (fs w) q = Ok (IFile d) →
  ∃ e, Pathlib.mkdir_parents_rev rp w = (Raise e, w) ∧
       (e = FileExistsError ∨ e = NotADirectoryError).
Proof.
  intros [r Hr] Hq. destruct rp as [|c rp].
  { simpl in Hr. destruct q; [done|]. done. }
  assert (rev (c :: rp) = rev rp ++ [c]) as Hrev by done. rewrite Hrev in Hr.
  set (p := rev rp ++ [c]) in *.
  assert (OS.is_root p = false) as Hroot.
  { unfold OS.is_root. apply bool_decide_eq_false_2. intros [Hp|Hp].
    - unfold p in Hp. by destruct (rev rp).
    - rewrite Hp in Hr. destruct q as [|x [|y q]]; try done.
      injection Hr as <- _. by vm_compute in Hq. }
  assert (∀ e, OS.stat (fs w) p ≠ Ok IDir → e ≠ FileNotFoundError →
               is_OSError e = true →
               OS.mkdir p w = (Raise e, w) →
               Pathlib.mkdir_parents_rev (c :: rp) w = (Raise e, w)) as Hraise.
  { intros e Hnd Hne Hos Hmk. simpl. fold p. unfold try_except. rewrite Hmk, Hos.
    rewrite bool_decide_eq_false_2 by done. unfold OS.is_dir. io_unfold.
    by destruct (OS.stat (fs w) p) as [[?|]|?]. }
  destruct r as [|x r] using rev_ind.
  - (* the file sits at the path itself *)
    rewrite app_nil_r in Hr. subst q. exists FileExistsError. split; [|by left].
    apply Hraise; try done.
    { by rewrite Hq. }
    unfold OS.mkdir. rewrite (parent_not_root _ Hroot). unfold p at 1.
    rewrite removelast_last. unfold p in Hq.
    rewrite (stat_snoc_Ok _ _ _ _ Hq). fold p in Hq.
    by rewrite (OSFacts.stat_Ok_node _ _ _ Hq).
  - (* the file sits at an ancestor *)
    clear IHr. unfold p in Hr. rewrite app_assoc in Hr.
    apply app_inj_tail in Hr as [Hdir _].
    exists NotADirectoryError. split; [|by right].
    assert (OS.stat (fs w) (rev rp) = Ok (IFile d) ∨
            OS.stat (fs w) (rev rp) = Raise NotADirectoryError) as Hd.
    { rewrite Hdir. destruct r as [|y r]; [rewrite app_nil_r; by left|].
      right. by eapply stat_through_file. }
    apply Hraise; try done.
    { unfold p. rewrite OSFacts.stat_snoc. by destruct Hd as [-> | ->]. }
    unfold OS.mkdir. rewrite (parent_not_root _ Hroot). unfold p.
    rewrite removelast_last. by destruct Hd as [-> | ->].
Qed.

(** X19 -- a regular file at the output directory path or at one of its
    parent segments aborts the run at once, whatever the environment:
    [run_pipeline] raises [FileExistsError] or [NotADirectoryError], no
    resource is processed, no request is sent, and the world is exactly as
    it was. *)
Theorem run_aborts_when_output_dir_is_blocked E q d w :
  q `prefix_of` OUTPUT_DIR →
  OS.stat (fs w) q = Ok (IFile d) →
  ∃ e, run_pipeline E w = (Raise e, w) ∧
       (e = FileExistsError ∨ e = NotADirectoryError).
Proof.
  intros Hq Hd.
  destruct (mkdir_parents_rev_blocked (rev OUTPUT_DIR) q d w) as (e & Hmk & He);
    [by rewrite rev_involutive|done|].
  exists e. split; [|done].
  unfold run_pipeline, run_pipeline_over, Pathlib.mkdir_parents_exist_ok.
  by rewrite (bind_Raise _ _ _ _ _ Hmk).
Qed.

Lemma run_aborts_when_output_dir_is_blocked_witness :
  ∃ e, run_pipeline Sample.E_ok Sample.blocked_world = (Raise e, Sample.blocked_world) ∧
       (e = FileExistsError ∨ e = NotADirectoryError).
Proof.
  apply (run_aborts_when_output_dir_is_blocked Sample.E_ok ["data"] []
           Sample.blocked_world).
  - by exists ["raw"; "imdb_data"].
  - by vm_compute.
Defined.
